(** * spiketools: spatial information and kinematics

    A shallow embedding of [spiketools/spatial/information.py] and
    [spiketools/spatial/position.py], with [split_time_value] of
    [spiketools/utils/timestamps.py] and the two-dimensional case of
    [create_dataframe_bins] of [spiketools/stats/anova.py].

    numpy's [float64] values are modelled by [f64]: a real number, the two
    infinities, or NaN.  Arithmetic on finite values is exact (no rounding,
    no overflow, no underflow); arithmetic that involves a zero divisor, an
    infinity or a NaN follows IEEE 754 as numpy applies it.  The two signed
    zeros are identified, a zero divisor counting as [+0.0]. *)

From Stdlib Require Import Reals Lra Lia List Bool Arith ZArith Permutation.
Import ListNotations.

Open Scope R_scope.

(** ** Floating-point values *)

Inductive f64 : Type :=
| Fin (r : R)
| PInf
| NInf
| NaN.

(** The sign of a real number, as a three-way comparison with zero. *)
Definition sgn (r : R) : comparison :=
  match total_order_T r 0 with
  | inleft (left _) => Lt
  | inleft (right _) => Eq
  | inright _ => Gt
  end.

Definition Fneg (x : f64) : f64 :=
  match x with
  | Fin r => Fin (- r)
  | PInf => NInf
  | NInf => PInf
  | NaN => NaN
  end.

Definition Fadd (x y : f64) : f64 :=
  match x, y with
  | NaN, _ | _, NaN => NaN
  | Fin a, Fin b => Fin (a + b)
  | PInf, NInf | NInf, PInf => NaN
  | PInf, _ | _, PInf => PInf
  | NInf, _ | _, NInf => NInf
  end.

Definition Fsub (x y : f64) : f64 := Fadd x (Fneg y).

(** An infinity of the given sign; [Eq] stands for the invalid [0 * inf]. *)
Definition inf_of (c : comparison) : f64 :=
  match c with
  | Gt => PInf
  | Lt => NInf
  | Eq => NaN
  end.

Definition Fmul (x y : f64) : f64 :=
  match x, y with
  | NaN, _ | _, NaN => NaN
  | Fin a, Fin b => Fin (a * b)
  | Fin a, PInf | PInf, Fin a => inf_of (sgn a)
  | Fin a, NInf | NInf, Fin a => inf_of (CompOpp (sgn a))
  | PInf, PInf | NInf, NInf => PInf
  | PInf, NInf | NInf, PInf => NInf
  end.

(** numpy's true division: [x / 0] is an infinity of the sign of [x] when
    [x] is not zero, and [0 / 0] is NaN; no exception is raised. *)
Definition Fdiv (x y : f64) : f64 :=
  match x, y with
  | NaN, _ | _, NaN => NaN
  | Fin a, Fin b =>
      match sgn b with
      | Eq => inf_of (sgn a)
      | _ => Fin (a / b)
      end
  | Fin _, PInf | Fin _, NInf => Fin 0
  | PInf, Fin b =>
      match sgn b with
      | Lt => NInf
      | _ => PInf
      end
  | NInf, Fin b =>
      match sgn b with
      | Lt => PInf
      | _ => NInf
      end
  | PInf, PInf | PInf, NInf | NInf, PInf | NInf, NInf => NaN
  end.

Definition Fsqrt (x : f64) : f64 :=
  match x with
  | Fin a =>
      match sgn a with
      | Lt => NaN
      | _ => Fin (sqrt a)
      end
  | PInf => PInf
  | NInf | NaN => NaN
  end.

(** [np.log2]: minus infinity at zero, NaN on negative numbers. *)
Definition Flog2 (x : f64) : f64 :=
  match x with
  | Fin a =>
      match sgn a with
      | Lt => NaN
      | Eq => NInf
      | Gt => Fin (ln a / ln 2)
      end
  | PInf => PInf
  | NInf | NaN => NaN
  end.

(** [x == y] on floats: false as soon as one side is NaN. *)
Definition Feqb (x y : f64) : bool :=
  match x, y with
  | Fin a, Fin b => if Req_dec_T a b then true else false
  | PInf, PInf | NInf, NInf => true
  | _, _ => false
  end.

(** [x <= y] on floats: false as soon as one side is NaN. *)
Definition Fle (x y : f64) : Prop :=
  match x, y with
  | NaN, _ | _, NaN => False
  | Fin a, Fin b => a <= b
  | NInf, _ | _, PInf => True
  | _, _ => False
  end.

Definition isnan (x : f64) : bool :=
  match x with
  | NaN => true
  | _ => false
  end.

Definition is_finite (x : f64) : Prop :=
  match x with
  | Fin _ => True
  | _ => False
  end.

(** A number or a NaN, but no infinity: the entries of an occupancy map
    whose masked bins hold a NaN. *)
Definition fin_or_nan (x : f64) : Prop :=
  match x with
  | Fin _ | NaN => True
  | _ => False
  end.

(** ** Exceptions

    The Python exceptions the modelled code can raise.  numpy reports two
    operands whose shapes do not broadcast, and an allocation of negative
    length, by [ValueError]; an index past the end of an array by
    [IndexError]. *)

Inductive exn : Type :=
| ValueError
| IndexError.

Inductive result (A : Type) : Type :=
| Ok (a : A)
| Err (e : exn).

Arguments Ok {A} a.
Arguments Err {A} e.

Definition bind {A B : Type} (m : result A) (k : A -> result B) : result B :=
  match m with
  | Ok a => k a
  | Err e => Err e
  end.

Notation "x <- m ;; k" := (bind m (fun x => k))
  (at level 61, m at next level, right associativity).

(** ** One-dimensional arrays

    An [ndarray] handed to the spatial information routine is modelled by the
    list of its entries in row-major order; two arrays of the same shape are
    two lists of the same length. *)

Definition array := list f64.

Fixpoint map2 (op : f64 -> f64 -> f64) (xs ys : array) : array :=
  match xs, ys with
  | x :: xs', y :: ys' => op x y :: map2 op xs' ys'
  | _, _ => []
  end.

(** An elementwise binary operation on two one-dimensional arrays, with
    numpy's broadcasting: the lengths are equal, or one of them is 1. *)
Definition broadcast2 (op : f64 -> f64 -> f64) (xs ys : array) : result array :=
  if Nat.eqb (length xs) (length ys) then Ok (map2 op xs ys)
  else match xs, ys with
       | [x], _ => Ok (map (op x) ys)
       | _, [y] => Ok (map (fun x => op x y) xs)
       | _, _ => Err ValueError
       end.

Definition nan_to_zero (x : f64) : f64 := if isnan x then Fin 0 else x.

Definition Fsum (xs : array) : f64 := fold_right Fadd (Fin 0) xs.

(** [np.nansum]: the sum of the entries, a NaN counting as zero. *)
Definition nansum (xs : array) : f64 := Fsum (map nan_to_zero xs).

Definition Fnonzero (x : f64) : bool := negb (Feqb x (Fin 0)).

(** [np.nonzero] from index [k] on: the indices of the entries that differ
    from zero.  A NaN differs from zero. *)
Fixpoint nonzero_from (k : nat) (xs : array) : list nat :=
  match xs with
  | [] => []
  | x :: xs' =>
      if Fnonzero x then k :: nonzero_from (S k) xs'
      else nonzero_from (S k) xs'
  end.

Definition nonzero (xs : array) : list nat := nonzero_from 0 xs.

(** [a[ix]] for a list of indices [ix]. *)
Fixpoint take (a : array) (ix : list nat) : result array :=
  match ix with
  | [] => Ok []
  | i :: ix' =>
      match nth_error a i with
      | Some x => rest <- take a ix' ;; Ok (x :: rest)
      | None => Err IndexError
      end
  end.

(** ** [spiketools/spatial/information.py] *)

Definition _compute_spatial_information (spike_map occupancy : array)
  : result f64 :=
  let rate := Fdiv (nansum spike_map) (nansum occupancy) in
  if Feqb rate (Fin 0) then Ok (Fin 0)
  else
    let occ_prob := map (fun o => Fdiv o (nansum occupancy)) occupancy in
    spike_map_norm <- broadcast2 Fdiv spike_map occupancy ;;
    let nz := nonzero spike_map_norm in
    occ_prob_nz <- take occ_prob nz ;;
    norm_nz <- take spike_map_norm nz ;;
    weighted <- broadcast2 Fmul occ_prob_nz norm_nz ;;
    terms <- broadcast2 Fmul weighted
               (map Flog2 (map (fun x => Fdiv x rate) norm_nz)) ;;
    Ok (Fdiv (nansum terms) rate).

(** ** [spiketools/spatial/position.py] *)

(** A single position as [compute_distance] receives it and hands it to
    [np.array]: a scalar (one entry of a 1d position array) or a vector of
    coordinates (one row of a 2d array, or a Python list of floats). *)
Inductive point : Type :=
| P0 (x : f64)
| P1 (xs : array).

(** A position array: one-dimensional, or two-dimensional of shape
    [(length rows, ncols)]. *)
Inductive position : Type :=
| Pos1 (xs : array)
| Pos2 (ncols : nat) (rows : list array).

(** Every row of a two-dimensional array has [ncols] entries. *)
Definition rectangular (p : position) : Prop :=
  match p with
  | Pos1 _ => True
  | Pos2 c rows => Forall (fun r => length r = c) rows
  end.

Inductive orientation : Type :=
| vector
| row
| column.

Definition is_row (o : orientation) : bool :=
  match o with
  | row => true
  | _ => false
  end.

(** [position.T]: a one-dimensional array is its own transpose. *)
Definition transpose (p : position) : position :=
  match p with
  | Pos1 xs => Pos1 xs
  | Pos2 c rows =>
      Pos2 (length rows)
        (map (fun j => map (fun r => nth j r (Fin 0)) rows) (seq 0 c))
  end.

(** [len(position)]. *)
Definition len (p : position) : nat :=
  match p with
  | Pos1 xs => length xs
  | Pos2 _ rows => length rows
  end.

(** The items met when iterating over a position array. *)
Definition items (p : position) : list point :=
  match p with
  | Pos1 xs => map P0 xs
  | Pos2 _ rows => map P1 rows
  end.

(** [np.array(p1) - np.array(p2)], with broadcasting. *)
Definition point_sub (p1 p2 : point) : result point :=
  match p1, p2 with
  | P0 a, P0 b => Ok (P0 (Fsub a b))
  | P0 a, P1 ys => Ok (P1 (map (fun y => Fsub a y) ys))
  | P1 xs, P0 b => Ok (P1 (map (fun x => Fsub x b) xs))
  | P1 xs, P1 ys => d <- broadcast2 Fsub xs ys ;; Ok (P1 d)
  end.

Definition ravel (p : point) : array :=
  match p with
  | P0 x => [x]
  | P1 xs => xs
  end.

(** [np.linalg.norm] of a scalar or a vector: the square root of the dot
    product of the flattened array with itself. *)
Definition norm (p : point) : f64 :=
  Fsqrt (Fsum (map (fun x => Fmul x x) (ravel p))).

Definition compute_distance (p1 p2 : point) : result f64 :=
  d <- point_sub p1 p2 ;; Ok (norm d).

(** [np.zeros(n)] for the Python integer [n]. *)
Definition zeros (n : Z) : result array :=
  if Z.ltb n 0 then Err ValueError else Ok (repeat (Fin 0) (Z.to_nat n)).

(** [a[i] = v]. *)
Fixpoint store (a : array) (i : nat) (v : f64) : result array :=
  match a, i with
  | [], _ => Err IndexError
  | _ :: a', O => Ok (v :: a')
  | x :: a', S i' => a'' <- store a' i' v ;; Ok (x :: a'')
  end.

(** The loop shared by [compute_distances] and
    [compute_distances_to_location], from index [ix] on: each pair is measured
    and the distance written to [dists[ix]]. *)
Fixpoint distances_loop (dists : array) (ix : nat) (pairs : list (point * point))
  : result array :=
  match pairs with
  | [] => Ok dists
  | (p1, p2) :: rest =>
      d <- compute_distance p1 p2 ;;
      dists' <- store dists ix d ;;
      distances_loop dists' (S ix) rest
  end.

(** [np.cumsum], with the running total [acc]. *)
Fixpoint cumsum_from (acc : f64) (xs : array) : array :=
  match xs with
  | [] => []
  | x :: xs' => Fadd acc x :: cumsum_from (Fadd acc x) xs'
  end.

Definition cumsum (xs : array) : array := cumsum_from (Fin 0) xs.

Section Kinematics.

(** [spiketools.utils.checks.check_array_orientation] is not among the
    sources; the functions below take it as a parameter. *)
Variable check_array_orientation : position -> orientation.

(** [position.T if check_array_orientation(position) == 'row' else position] *)
Definition oriented (p : position) : position :=
  if is_row (check_array_orientation p) then transpose p else p.

Definition compute_distances (pos : position) : result array :=
  let pos := oriented pos in
  dists <- zeros (Z.of_nat (len pos) - 1) ;;
  distances_loop dists 0 (combine (items pos) (tl (items pos))).

Definition compute_cumulative_distances (pos : position) : result array :=
  dists <- compute_distances pos ;; Ok (cumsum dists).

Definition compute_distances_to_location (pos : position) (location : point)
  : result array :=
  let pos := oriented pos in
  dists <- zeros (Z.of_nat (len pos)) ;;
  distances_loop dists 0 (map (fun p => (p, location)) (items pos)).

Definition compute_speed (pos : position) (bin_times : array) : result array :=
  distances <- compute_distances pos ;;
  broadcast2 Fdiv distances bin_times.

End Kinematics.

(** Modelled from the spec: [check_array_orientation] of
    [spiketools/utils/checks.py], which is not among the sources.  The spec
    (4.2) compares the two axis lengths and takes the shorter axis for the
    dimension axis; a one-dimensional array has a single axis. *)
Definition check_array_orientation_by_shape (p : position) : orientation :=
  match p with
  | Pos1 _ => vector
  | Pos2 c rows => if Nat.ltb (length rows) c then row else column
  end.

(** ** The information measure as the specification words it *)

Definition Rsum (l : list R) : R := fold_right Rplus 0 l.

Definition log2 (x : R) : R := ln x / ln 2.

Definition Rnonzero (x : R) : bool := if Req_dec_T x 0 then false else true.

(** The Skaggs sum over real-valued maps: with [rate] the total spike count
    over the total occupancy, the sum over the bins of nonzero normalized
    rate of [occ_prob * norm_rate * log2 (norm_rate / rate)], over [rate]. *)
Definition skaggs_information (spike_map occupancy : list R) : R :=
  let total := Rsum occupancy in
  let rate := Rsum spike_map / total in
  Rsum (map (fun b : R * R =>
               let (s, o) := b in
               (o / total) * (s / o) * log2 ((s / o) / rate))
          (filter (fun b : R * R => let (s, o) := b in Rnonzero (s / o))
             (combine spike_map occupancy)))
  / rate.

(** The contribution of one bin [(spikes, occupancy)] to the sum. *)
Definition bin_term (total rate : f64) (b : f64 * f64) : f64 :=
  let (s, o) := b in
  Fmul (Fmul (Fdiv o total) (Fdiv s o)) (Flog2 (Fdiv (Fdiv s o) rate)).

Definition firing (b : f64 * f64) : bool := Fnonzero (Fdiv (fst b) (snd b)).

Definition visited (b : f64 * f64) : bool := Fnonzero (snd b).

(** Steps 1 to 6 of the specification (4.1), the bins of zero occupancy
    being excluded from the sum explicitly. *)
Definition masked_information (spike_map occupancy : array) : f64 :=
  let total := nansum occupancy in
  let rate := Fdiv (nansum spike_map) total in
  if Feqb rate (Fin 0) then Fin 0
  else
    Fdiv (nansum (map (bin_term total rate)
                    (filter (fun b => visited b && firing b)
                       (combine spike_map occupancy))))
      rate.

(** Scaling an array by the real constant [c]. *)
Definition scale (c : R) (xs : array) : array := map (Fmul (Fin c)) xs.

(** Dividing a float by the real constant [c]. *)
Definition unscale (c : R) (x : f64) : f64 := Fdiv x (Fin c).

(** A vector is non-decreasing when each entry is at most the next one. *)
Fixpoint nondecreasing (xs : array) : Prop :=
  match xs with
  | x :: (y :: _) as rest => Fle x y /\ nondecreasing rest
  | _ => True
  end.

Definition nonneg (x : f64) : Prop := Fle (Fin 0) x.

Definition finite_point (p : point) : Prop := Forall is_finite (ravel p).

Definition finite_position (p : position) : Prop :=
  match p with
  | Pos1 xs => Forall is_finite xs
  | Pos2 _ rows => Forall (Forall is_finite) rows
  end.

(** The dimensionality of a point matches that of the samples of a
    position array: a scalar or a single coordinate for a one-dimensional
    array, [ncols] coordinates for a two-dimensional one. *)
Definition matching (pos : position) (location : point) : Prop :=
  match pos with
  | Pos1 _ => length (ravel location) = 1%nat
  | Pos2 c _ =>
      match location with
      | P0 _ => c = 1%nat
      | P1 xs => length xs = c
      end
  end.

(** ** [spiketools/utils/timestamps.py] *)

(** Python's [divmod] on integers: floor division and the remainder that
    goes with it. *)
Definition divmod (a b : Z) : Z * Z := (Z.div a b, Z.modulo a b).

(** [split_time_value] on a Python integer number of seconds. *)
Definition split_time_value (sec : Z) : Z * Z * Z :=
  let (minutes, seconds) := divmod sec 60 in
  let (hours, minutes) := divmod minutes 60 in
  (hours, minutes, seconds).

(** ** [spiketools/stats/anova.py] *)

(** [np.repeat(xs, k)]: each entry [k] times in a row. *)
Definition np_repeat {A : Type} (xs : list A) (k : nat) : list A :=
  flat_map (fun x => repeat x k) xs.

(** [np.tile(xs, k)]: the whole array [k] times. *)
Definition np_tile {A : Type} (xs : list A) (k : nat) : list A :=
  concat (repeat xs k).

(** [np.stack([a, b, c], axis=1)] on three one-dimensional arrays, which
    must have the same length. *)
Fixpoint stack3 {A B C : Type} (a : list A) (b : list B) (c : list C)
  : result (list (A * B * C)) :=
  match a, b, c with
  | [], [], [] => Ok []
  | x :: a', y :: b', z :: c' => rest <- stack3 a' b' c' ;; Ok ((x, y, z) :: rest)
  | _, _, _ => Err ValueError
  end.

(** A dataframe of columns [trial], [bin] and [fr], as the list of its
    rows. *)
Definition dataframe := list (nat * nat * f64).

(** [create_dataframe] on the rows of such a dataframe: [dropna] removes
    the rows that hold a NaN, and the casts of [trial] and [bin] to [int]
    leave their whole numbers as they are. *)
Definition create_dataframe (data : dataframe) (drop_na : bool) : dataframe :=
  if drop_na then filter (fun r => negb (isnan (snd r))) data else data.

(** [create_dataframe_bins] on a two-dimensional [bin_data] of shape
    [(length bin_data, n_bins)], with [bin_columns], [other_data] and
    [dtypes] left at [None]. *)
Definition create_dataframe_bins (n_bins : nat) (bin_data : list array)
  (drop_na : bool) : result dataframe :=
  let n_trials := length bin_data in
  let trial := np_repeat (seq 0 n_trials) n_bins in
  let labels := np_tile (seq 0 n_bins) n_trials in
  df_data <- stack3 trial labels (concat bin_data) ;;
  Ok (create_dataframe df_data drop_na).

(** * Properties *)

(** ** Signs and finite values *)

Lemma sgn_pos (r : R) : 0 < r -> sgn r = Gt.
Proof.
  intros H. unfold sgn. destruct (total_order_T r 0) as [[Hlt | Heq] | Hgt]; try lra; reflexivity.
Qed.

Lemma sgn_neg (r : R) : r < 0 -> sgn r = Lt.
Proof.
  intros H. unfold sgn. destruct (total_order_T r 0) as [[Hlt | Heq] | Hgt]; try lra; reflexivity.
Qed.

Lemma sgn_zero : sgn 0 = Eq.
Proof.
  unfold sgn. destruct (total_order_T 0 0) as [[Hlt | Heq] | Hgt]; try lra; reflexivity.
Qed.

Lemma sgn_spec (r : R) :
  (r < 0 /\ sgn r = Lt) \/ (r = 0 /\ sgn r = Eq) \/ (0 < r /\ sgn r = Gt).
Proof.
  unfold sgn. destruct (total_order_T r 0) as [[Hlt | Heq] | Hgt]; auto.
Qed.

(** Case analysis on the sign of [r], rewriting [sgn r] everywhere. *)
Ltac sign_of r :=
  let H := fresh "Hs" in
  let E := fresh "Es" in
  destruct (sgn_spec r) as [[H E] | [[H E] | [H E]]];
  rewrite ?E in *; simpl in *.

(** Evaluation on concrete numbers: every sign test and every comparison
    with zero in the goal is settled by linear arithmetic. *)
Ltac settle_sign :=
  match goal with
  | |- context [sgn ?r] =>
      first [ rewrite (sgn_pos r) by lra
            | rewrite (sgn_neg r) by lra
            | replace (sgn r) with Eq
                by (replace r with 0 by lra; symmetry; exact sgn_zero) ]
  | |- context [Req_dec_T ?a ?b] =>
      destruct (Req_dec_T a b); [try lra | try lra]
  end.

Ltac fcalc := repeat (simpl; settle_sign); simpl.

Lemma Feqb_zero_Fin (r : R) : Feqb (Fin r) (Fin 0) = true <-> r = 0.
Proof.
  simpl. destruct (Req_dec_T r 0); split; intros; congruence.
Qed.

Lemma Fnonzero_Fin (r : R) : Fnonzero (Fin r) = true <-> r <> 0.
Proof.
  unfold Fnonzero. simpl. destruct (Req_dec_T r 0); simpl; split; intros; congruence.
Qed.

Lemma Fnonzero_false (x : f64) : Fnonzero x = false <-> x = Fin 0.
Proof.
  unfold Fnonzero. destruct x; simpl; try (split; intros; discriminate).
  destruct (Req_dec_T r 0); simpl; split; intros; congruence.
Qed.

Lemma Fadd_0_l (x : f64) : Fadd (Fin 0) x = x.
Proof.
  destruct x; simpl; try reflexivity. f_equal. lra.
Qed.

(** ** Arrays *)

Lemma broadcast2_same (op : f64 -> f64 -> f64) (xs ys : array) :
  length xs = length ys -> broadcast2 op xs ys = Ok (map2 op xs ys).
Proof.
  intros H. unfold broadcast2. rewrite H, Nat.eqb_refl. reflexivity.
Qed.

Lemma map2_length (op : f64 -> f64 -> f64) (xs ys : array) :
  length xs = length ys -> length (map2 op xs ys) = length xs.
Proof.
  revert ys. induction xs as [| x xs IH]; intros [| y ys] H; simpl in *; try lia.
  rewrite IH; lia.
Qed.

Lemma map2_combine (op : f64 -> f64 -> f64) (xs ys : array) :
  map2 op xs ys = map (fun b => op (fst b) (snd b)) (combine xs ys).
Proof.
  revert ys. induction xs as [| x xs IH]; intros [| y ys]; simpl; try reflexivity.
  now rewrite IH.
Qed.

Lemma map2_map {A : Type} (op : f64 -> f64 -> f64) (f g : A -> f64) (l : list A) :
  map2 op (map f l) (map g l) = map (fun z => op (f z) (g z)) l.
Proof.
  induction l as [| z l IH]; simpl; [reflexivity | now rewrite IH].
Qed.

Lemma map_snd_combine (xs ys : array) :
  length xs = length ys -> map snd (combine xs ys) = ys.
Proof.
  revert ys. induction xs as [| x xs IH]; intros [| y ys] H; simpl in *; try lia; try reflexivity.
  rewrite IH; [reflexivity | lia].
Qed.

(** Indexing [map f zs] by the nonzero positions of [map g zs] keeps the
    images under [f] of the items whose image under [g] is nonzero. *)
Lemma take_nonzero_from {A : Type} (f g : A -> f64) (zs : list A) (pre : array) :
  take (pre ++ map f zs) (nonzero_from (length pre) (map g zs))
  = Ok (map f (filter (fun z => Fnonzero (g z)) zs)).
Proof.
  revert pre. induction zs as [| z zs IH]; intros pre; simpl; [reflexivity |].
  assert (Hpre : pre ++ f z :: map f zs = (pre ++ [f z]) ++ map f zs)
    by (rewrite <- app_assoc; reflexivity).
  assert (Hlen : S (length pre) = length (pre ++ [f z]))
    by (rewrite length_app; simpl; lia).
  destruct (Fnonzero (g z)); simpl.
  - rewrite nth_error_app2 by lia. rewrite Nat.sub_diag. simpl.
    rewrite Hpre, Hlen, IH. reflexivity.
  - rewrite Hpre, Hlen, IH. reflexivity.
Qed.

Lemma take_nonzero {A : Type} (f g : A -> f64) (zs : list A) :
  take (map f zs) (nonzero (map g zs))
  = Ok (map f (filter (fun z => Fnonzero (g z)) zs)).
Proof.
  exact (take_nonzero_from f g zs []).
Qed.

(** ** The spatial information routine, bin by bin *)

(** On two maps of the same shape the routine sums [bin_term] over the bins
    whose normalized rate is nonzero. *)
Lemma information_per_bin (spike_map occupancy : array) :
  length spike_map = length occupancy ->
  _compute_spatial_information spike_map occupancy =
  Ok (let total := nansum occupancy in
      let rate := Fdiv (nansum spike_map) total in
      if Feqb rate (Fin 0) then Fin 0
      else Fdiv (nansum (map (bin_term total rate)
                           (filter firing (combine spike_map occupancy))))
             rate).
Proof.
  intros Hlen. unfold _compute_spatial_information. cbv zeta.
  destruct (Feqb (Fdiv (nansum spike_map) (nansum occupancy)) (Fin 0)); [reflexivity |].
  rewrite broadcast2_same by exact Hlen. simpl bind.
  rewrite map2_combine.
  assert (Hocc : map (fun o => Fdiv o (nansum occupancy)) occupancy
                 = map (fun b : f64 * f64 => Fdiv (snd b) (nansum occupancy))
                     (combine spike_map occupancy)).
  { rewrite <- (map_map snd (fun o => Fdiv o (nansum occupancy))).
    now rewrite map_snd_combine. }
  rewrite Hocc.
  rewrite (take_nonzero (fun b => Fdiv (snd b) (nansum occupancy))
             (fun b => Fdiv (fst b) (snd b))).
  simpl bind.
  rewrite (take_nonzero (fun b : f64 * f64 => Fdiv (fst b) (snd b))
             (fun b => Fdiv (fst b) (snd b))).
  simpl bind.
  rewrite broadcast2_same by (now rewrite !length_map).
  simpl bind. rewrite map2_map, !map_map.
  rewrite broadcast2_same by (now rewrite !length_map).
  simpl bind. rewrite map2_map.
  f_equal. f_equal. f_equal.
  apply map_ext. intros [s o]. reflexivity.
Qed.

(** ** Sums *)

Lemma nansum_cons (x : f64) (xs : array) :
  nansum (x :: xs) = Fadd (nan_to_zero x) (nansum xs).
Proof. reflexivity. Qed.

Lemma nansum_null (xs : array) :
  Forall (fun x => nan_to_zero x = Fin 0) xs -> nansum xs = Fin 0.
Proof.
  induction 1 as [| x xs Hx _ IH]; [reflexivity |].
  rewrite nansum_cons, Hx, IH. apply Fadd_0_l.
Qed.

Lemma nansum_zeros (xs : array) :
  Forall (eq (Fin 0)) xs -> nansum xs = Fin 0.
Proof.
  intros H. apply nansum_null. eapply Forall_impl; [| exact H].
  intros x <-. reflexivity.
Qed.

Lemma Fdiv_zero_nonzero (t : f64) :
  t <> Fin 0 -> t <> NaN -> Feqb (Fdiv (Fin 0) t) (Fin 0) = true.
Proof.
  intros H0 Hn. destruct t as [b | | |]; simpl; try congruence.
  - sign_of b.
    + apply Feqb_zero_Fin. unfold Rdiv. lra.
    + subst b. congruence.
    + apply Feqb_zero_Fin. unfold Rdiv. lra.
  - apply Feqb_zero_Fin. reflexivity.
  - apply Feqb_zero_Fin. reflexivity.
Qed.

(** ** The zero-rate short-circuit *)

(** C3, as amended: for every all-zero spike map and every occupancy array
    whose NaN-ignoring total is neither zero nor NaN, the spatial
    information routine returns exactly [0.0]. *)
Theorem zero_spike_map_zero_information (spike_map occupancy : array) :
  Forall (eq (Fin 0)) spike_map ->
  nansum occupancy <> Fin 0 ->
  nansum occupancy <> NaN ->
  _compute_spatial_information spike_map occupancy = Ok (Fin 0).
Proof.
  intros Hz H0 Hn. unfold _compute_spatial_information. cbv zeta.
  rewrite (nansum_zeros spike_map Hz).
  rewrite (Fdiv_zero_nonzero _ H0 Hn). reflexivity.
Qed.

Lemma zero_spike_map_zero_information_witness :
  _compute_spatial_information [Fin 0; Fin 0] [Fin 1; Fin 0] = Ok (Fin 0).
Proof.
  apply zero_spike_map_zero_information.
  - repeat constructor.
  - unfold nansum; simpl. intros H. injection H. lra.
  - unfold nansum; simpl. discriminate.
Defined.

(** C3, as stated, fails on an all-zero occupancy: the rate is [0 / 0], a
    NaN, which differs from zero, and the routine goes on to return NaN. *)
Lemma zero_spike_map_zero_occupancy_nan :
  Forall (eq (Fin 0)) [Fin 0] /\
  _compute_spatial_information [Fin 0] [Fin 0] = Ok NaN.
Proof.
  split; [repeat constructor |].
  unfold _compute_spatial_information, nansum. simpl.
  replace (0 + 0) with 0 by lra. rewrite sgn_zero. simpl. reflexivity.
Qed.

(** ** All-zero occupancy *)

Lemma Forall_combine_snd (P : f64 -> Prop) (xs ys : array) :
  Forall P ys -> Forall (fun b => P (snd b)) (combine xs ys).
Proof.
  intros H. revert xs. induction H as [| y ys Hy _ IH]; intros [| x xs]; simpl;
    constructor; auto.
Qed.

Lemma Forall_combine_fst (P : f64 -> Prop) (xs ys : array) :
  Forall P xs -> Forall (fun b => P (fst b)) (combine xs ys).
Proof.
  intros H. revert ys. induction H as [| x xs Hx _ IH]; intros [| y ys]; simpl;
    constructor; auto.
Qed.

Lemma Forall_filter {A : Type} (P : A -> Prop) (f : A -> bool) (l : list A) :
  Forall P l -> Forall P (filter f l).
Proof.
  induction 1 as [| x l Hx _ IH]; simpl; [constructor |].
  destruct (f x); [constructor |]; assumption.
Qed.

Lemma bin_term_zero_occupancy (total rate s : f64) :
  nan_to_zero (bin_term total rate (s, Fin 0)) = Fin 0.
Proof.
  unfold bin_term.
  assert (H : Fmul (Fdiv (Fin 0) total) (Fdiv s (Fin 0)) = NaN).
  { destruct total as [t | | |], s as [a | | |]; simpl;
      rewrite ?sgn_zero; simpl; try reflexivity;
      try (sign_of t; try reflexivity);
      try (sign_of a; rewrite ?sgn_zero; try reflexivity);
      try (unfold Rdiv; rewrite ?Rmult_0_l, ?sgn_zero; reflexivity). }
  rewrite H. reflexivity.
Qed.

(** C2, as amended: for every spike map whose NaN-ignoring total is a
    positive number, paired with an all-zero occupancy array of the same
    shape, the routine raises nothing and returns the ordinary number
    [0.0]: the rate is plus infinity, every bin contributes a NaN that the
    sum drops, and zero over infinity is zero. *)
Theorem zero_occupancy_zero_information (spike_map occupancy : array) (S : R) :
  length spike_map = length occupancy ->
  nansum spike_map = Fin S ->
  0 < S ->
  Forall (eq (Fin 0)) occupancy ->
  _compute_spatial_information spike_map occupancy = Ok (Fin 0).
Proof.
  intros Hlen HS Hpos Hocc.
  rewrite information_per_bin by exact Hlen. cbv zeta.
  rewrite HS, (nansum_zeros occupancy Hocc). simpl Fdiv.
  rewrite sgn_zero, (sgn_pos S Hpos). simpl.
  rewrite nansum_null; [reflexivity |].
  apply Forall_map, Forall_filter.
  eapply Forall_impl; [| exact (Forall_combine_snd _ spike_map occupancy Hocc)].
  intros [s o] Ho. simpl in Ho. subst o.
  apply bin_term_zero_occupancy.
Qed.

Lemma zero_occupancy_zero_information_witness :
  _compute_spatial_information [Fin 2; Fin 1] [Fin 0; Fin 0] = Ok (Fin 0).
Proof.
  apply (zero_occupancy_zero_information _ _ 3).
  - reflexivity.
  - unfold nansum; simpl. f_equal. lra.
  - lra.
  - repeat constructor.
Defined.

(** C2, as stated, fails: one spike in a bin of zero occupancy yields the
    finite number [0.0], neither an exception nor a NaN. *)
Lemma spikes_without_occupancy_finite :
  _compute_spatial_information [Fin 1] [Fin 0] = Ok (Fin 0) /\
  nansum [Fin 1] = Fin 1 /\ Forall (eq (Fin 0)) [Fin 0].
Proof.
  split; [| split].
  - unfold _compute_spatial_information, nansum. fcalc. reflexivity.
  - unfold nansum; simpl. f_equal. lra.
  - repeat constructor.
Qed.

(** ** Bins of zero occupancy *)

Lemma nansum_fin_or_nan (xs : array) :
  Forall fin_or_nan xs -> exists r, nansum xs = Fin r.
Proof.
  induction 1 as [| x xs Hx _ [r IH]]; [exists 0; reflexivity |].
  rewrite nansum_cons, IH.
  destruct x as [a | | |]; simpl in *; try contradiction; eauto.
Qed.

Lemma is_finite_fin_or_nan (x : f64) : is_finite x -> fin_or_nan x.
Proof. destruct x; simpl; auto. Qed.

(** Dropping the bins of zero occupancy from the selection leaves the sum
    as it is: each of them contributes a NaN. *)
Lemma nansum_visited (total rate : f64) (bins : list (f64 * f64)) :
  nansum (map (bin_term total rate) (filter firing bins))
  = nansum (map (bin_term total rate)
              (filter (fun b => visited b && firing b) bins)).
Proof.
  induction bins as [| [s o] bins IH]; [reflexivity |].
  simpl filter. destruct (firing (s, o)) eqn:Hf.
  - destruct (visited (s, o)) eqn:Hv; cbn [andb map].
    + rewrite !nansum_cons, IH. reflexivity.
    + apply Fnonzero_false in Hv. simpl in Hv. subst o.
      rewrite nansum_cons, bin_term_zero_occupancy, Fadd_0_l. exact IH.
  - rewrite andb_false_r. exact IH.
Qed.

Lemma information_masked (spike_map occupancy : array) :
  length spike_map = length occupancy ->
  _compute_spatial_information spike_map occupancy
  = Ok (masked_information spike_map occupancy).
Proof.
  intros Hlen. rewrite information_per_bin by exact Hlen.
  unfold masked_information. cbv zeta. now rewrite nansum_visited.
Qed.

Lemma Rdiv_neq_0 (a b : R) : a <> 0 -> b <> 0 -> a / b <> 0.
Proof.
  intros Ha Hb. unfold Rdiv. apply Rmult_integral_contrapositive.
  split; [assumption | now apply Rinv_neq_0_compat].
Qed.

Lemma Rdiv_eq_0 (a b : R) : a / b = 0 -> b <> 0 -> a = 0.
Proof.
  intros H Hb. destruct (Req_dec_T a 0) as [| Ha]; [assumption |].
  exfalso. exact (Rdiv_neq_0 a b Ha Hb H).
Qed.

(** A visited, firing bin of finite counts contributes a number or a NaN
    when the total occupancy and the rate are nonzero numbers. *)
Lemma bin_term_fin_or_nan (O rate : R) (s o : f64) :
  O <> 0 -> rate <> 0 ->
  is_finite s -> fin_or_nan o ->
  visited (s, o) = true -> firing (s, o) = true ->
  fin_or_nan (bin_term (Fin O) (Fin rate) (s, o)).
Proof.
  intros HO Hr Hs Ho Hv Hf.
  destruct s as [a | | |]; simpl in Hs; try contradiction.
  destruct o as [b | | |]; simpl in Ho; try contradiction; [| exact I].
  unfold visited in Hv. simpl snd in Hv. apply Fnonzero_Fin in Hv.
  unfold firing in Hf. simpl fst in Hf. simpl snd in Hf.
  unfold bin_term.
  assert (HdO : Fdiv (Fin b) (Fin O) = Fin (b / O)).
  { simpl. sign_of O; try reflexivity. contradiction. }
  assert (Hdb : Fdiv (Fin a) (Fin b) = Fin (a / b)).
  { simpl. sign_of b; try reflexivity. contradiction. }
  rewrite HdO, Hdb in *. apply Fnonzero_Fin in Hf.
  assert (Hdr : Fdiv (Fin (a / b)) (Fin rate) = Fin (a / b / rate)).
  { simpl. sign_of rate; try reflexivity. contradiction. }
  rewrite Hdr. simpl Fmul at 2.
  pose proof (Rdiv_neq_0 _ _ Hf Hr) as Hq.
  simpl. sign_of (a / b / rate); try exact I. contradiction.
Qed.

Lemma Forall_combine (P Q : f64 -> Prop) (xs ys : array) :
  Forall P xs -> Forall Q ys ->
  Forall (fun b => P (fst b) /\ Q (snd b)) (combine xs ys).
Proof.
  intros Hx. revert ys. induction Hx as [| x xs Hx _ IH]; intros ys Hy; [constructor |].
  destruct Hy as [| y ys Hy Hys]; simpl; constructor; auto.
Qed.

Lemma Forall_filter_true {A : Type} (P : A -> Prop) (f : A -> bool) (l : list A) :
  Forall P l -> Forall (fun x => P x /\ f x = true) (filter f l).
Proof.
  induction 1 as [| x l Hx _ IH]; simpl; [constructor |].
  destruct (f x) eqn:E; [constructor; auto | assumption].
Qed.

(** C1: for every spike map of finite entries and every occupancy array of
    the same shape whose entries are numbers or NaN, with a positive total
    occupancy and a nonzero mean rate, when some bin has zero occupancy the
    routine returns a finite number, and that number is the one obtained by
    excluding the bins of zero occupancy from the information sum. *)
Theorem zero_occupancy_bins_excluded (spike_map occupancy : array) (O : R) :
  length spike_map = length occupancy ->
  Forall is_finite spike_map ->
  Forall fin_or_nan occupancy ->
  nansum occupancy = Fin O ->
  0 < O ->
  Fdiv (nansum spike_map) (nansum occupancy) <> Fin 0 ->
  In (Fin 0) occupancy ->
  exists v : R,
    _compute_spatial_information spike_map occupancy = Ok (Fin v) /\
    masked_information spike_map occupancy = Fin v.
Proof.
  intros Hlen Hs Ho HO Hpos Hrate _.
  rewrite information_masked by exact Hlen.
  assert (Hfin : exists v, masked_information spike_map occupancy = Fin v);
    [| destruct Hfin as [v Hv]; exists v; rewrite Hv; split; reflexivity].
  unfold masked_information. cbv zeta.
  destruct (nansum_fin_or_nan spike_map) as [S HS].
  { eapply Forall_impl; [| exact Hs]. exact is_finite_fin_or_nan. }
  rewrite HS, HO in *.
  assert (Hdiv : Fdiv (Fin S) (Fin O) = Fin (S / O)).
  { simpl. rewrite (sgn_pos O Hpos). reflexivity. }
  rewrite Hdiv in *.
  assert (Hr : S / O <> 0) by (intros E; apply Hrate; now rewrite E).
  destruct (Feqb (Fin (S / O)) (Fin 0)) eqn:Ez.
  { apply Feqb_zero_Fin in Ez. contradiction. }
  destruct (nansum_fin_or_nan
              (map (bin_term (Fin O) (Fin (S / O)))
                 (filter (fun b => visited b && firing b)
                    (combine spike_map occupancy)))) as [T HT].
  { apply Forall_map.
    pose proof (Forall_filter_true _ (fun b => visited b && firing b) _
                  (Forall_combine _ _ _ _ Hs Ho)) as Hall.
    eapply Forall_impl; [| exact Hall].
    intros [s o] [[Hfs Hfo] Hsel]. apply andb_true_iff in Hsel as [Hv Hf].
    apply bin_term_fin_or_nan; auto. lra. }
  rewrite HT. simpl. sign_of (S / O); eauto. contradiction.
Qed.

Lemma zero_occupancy_bins_excluded_witness :
  exists v : R,
    _compute_spatial_information [Fin 1; Fin 1] [Fin 1; Fin 0] = Ok (Fin v) /\
    masked_information [Fin 1; Fin 1] [Fin 1; Fin 0] = Fin v.
Proof.
  apply (zero_occupancy_bins_excluded _ _ 1).
  - reflexivity.
  - repeat constructor.
  - repeat constructor.
  - unfold nansum; simpl. f_equal. lra.
  - lra.
  - unfold nansum. fcalc. intros H. injection H. lra.
  - simpl. auto.
Defined.

(** ** The Skaggs sum *)

Lemma nansum_map_Fin (l : list R) : nansum (map Fin l) = Fin (Rsum l).
Proof.
  induction l as [| a l IH]; [reflexivity |].
  simpl map. rewrite nansum_cons, IH. reflexivity.
Qed.

Lemma Rsum_nonneg (l : list R) : Forall (fun a => 0 <= a) l -> 0 <= Rsum l.
Proof.
  induction 1 as [| a l Ha _ IH]; simpl; lra.
Qed.

Lemma Rsum_pos (l : list R) : l <> [] -> Forall (fun a => 0 < a) l -> 0 < Rsum l.
Proof.
  intros Hne H. destruct H as [| a l Ha Hl]; [congruence |].
  simpl. assert (0 <= Rsum l); [| lra].
  apply Rsum_nonneg. eapply Forall_impl; [| exact Hl]. intros; simpl in *; lra.
Qed.

Lemma combine_map_Fin (s o : list R) :
  combine (map Fin s) (map Fin o)
  = map (fun b : R * R => (Fin (fst b), Fin (snd b))) (combine s o).
Proof.
  revert o. induction s as [| a s IH]; intros [| b o]; simpl; try reflexivity.
  now rewrite IH.
Qed.

Lemma Forall_combine_R (P Q : R -> Prop) (xs ys : list R) :
  Forall P xs -> Forall Q ys ->
  Forall (fun b => P (fst b) /\ Q (snd b)) (combine xs ys).
Proof.
  intros Hx. revert ys. induction Hx as [| x xs Hx _ IH]; intros ys Hy; [constructor |].
  destruct Hy as [| y ys Hy Hys]; simpl; constructor; auto.
Qed.

(** On bins of non-negative counts and positive occupancy the selected
    terms are numbers, and their sum is the real sum of the formula. *)
Lemma nansum_terms_real (O rate : R) (bins : list (R * R)) :
  0 < O -> 0 < rate ->
  Forall (fun b => 0 <= fst b /\ 0 < snd b) bins ->
  nansum (map (bin_term (Fin O) (Fin rate))
            (filter firing
               (map (fun b : R * R => (Fin (fst b), Fin (snd b))) bins)))
  = Fin (Rsum (map (fun b : R * R =>
                      let (s, o) := b in
                      (o / O) * (s / o) * log2 ((s / o) / rate))
                 (filter (fun b : R * R => let (s, o) := b in Rnonzero (s / o))
                    bins))).
Proof.
  intros HO Hr. induction 1 as [| [a b] bins [Ha Hb] _ IH]; [reflexivity |].
  simpl in Ha, Hb. cbn [map filter fst snd].
  unfold firing at 1. cbn [fst snd].
  assert (Hdb : Fdiv (Fin a) (Fin b) = Fin (a / b)).
  { simpl. rewrite (sgn_pos b Hb). reflexivity. }
  rewrite Hdb. unfold Fnonzero, Rnonzero. simpl Feqb.
  destruct (Req_dec_T (a / b) 0) as [Hz | Hnz]; simpl negb; cbv iota; [exact IH |].
  cbn [map]. rewrite nansum_cons, IH.
  assert (Hapos : 0 < a).
  { destruct Ha as [Ha | Ha]; [assumption |].
    exfalso. apply Hnz. subst a. unfold Rdiv. lra. }
  assert (Hab : 0 < a / b) by (apply Rdiv_lt_0_compat; assumption).
  assert (Habr : 0 < a / b / rate) by (apply Rdiv_lt_0_compat; assumption).
  unfold bin_term. rewrite Hdb.
  simpl. rewrite (sgn_pos O HO), (sgn_pos rate Hr). simpl.
  rewrite (sgn_pos _ Habr). simpl. reflexivity.
Qed.

(** C4: for every spike map of non-negative counts and every occupancy
    array of the same shape whose entries are all strictly positive
    numbers, with a nonzero mean rate, the routine returns the Skaggs
    sum. *)
Theorem information_is_skaggs_sum (spike_map occupancy : list R) :
  length spike_map = length occupancy ->
  Forall (fun s => 0 <= s) spike_map ->
  Forall (fun o => 0 < o) occupancy ->
  Rsum spike_map / Rsum occupancy <> 0 ->
  _compute_spatial_information (map Fin spike_map) (map Fin occupancy)
  = Ok (Fin (skaggs_information spike_map occupancy)).
Proof.
  intros Hlen Hs Ho Hrate.
  assert (Hne : occupancy <> []).
  { intros E. subst occupancy. destruct spike_map; [| discriminate].
    apply Hrate. simpl. unfold Rdiv. lra. }
  pose proof (Rsum_pos occupancy Hne Ho) as HO.
  pose proof (Rsum_nonneg spike_map Hs) as HS.
  assert (Hr : 0 < Rsum spike_map / Rsum occupancy).
  { destruct HS as [HS | HS]; [apply Rdiv_lt_0_compat; assumption |].
    exfalso. apply Hrate. rewrite <- HS. unfold Rdiv. lra. }
  rewrite information_per_bin by (now rewrite !length_map).
  cbv zeta. rewrite !nansum_map_Fin.
  assert (Hdiv : Fdiv (Fin (Rsum spike_map)) (Fin (Rsum occupancy))
                 = Fin (Rsum spike_map / Rsum occupancy)).
  { simpl. rewrite (sgn_pos _ HO). reflexivity. }
  rewrite Hdiv.
  destruct (Feqb (Fin (Rsum spike_map / Rsum occupancy)) (Fin 0)) eqn:Ez.
  { apply Feqb_zero_Fin in Ez. contradiction. }
  rewrite combine_map_Fin.
  rewrite (nansum_terms_real _ _ _ HO Hr (Forall_combine_R _ _ _ _ Hs Ho)).
  unfold skaggs_information. simpl. rewrite (sgn_pos _ Hr). reflexivity.
Qed.

Lemma information_is_skaggs_sum_witness :
  _compute_spatial_information (map Fin [2; 0]) (map Fin [1; 3])
  = Ok (Fin (skaggs_information [2; 0] [1; 3])).
Proof.
  apply information_is_skaggs_sum.
  - reflexivity.
  - repeat constructor; lra.
  - repeat constructor; lra.
  - simpl. unfold Rdiv. intros H.
    assert (Hi : 0 < / (1 + (3 + 0))) by (apply Rinv_0_lt_compat; lra).
    nra.
Defined.

(** ** The distance loop *)

Lemma store_app (pre : array) (z : f64) (zs : array) (v : f64) :
  store (pre ++ z :: zs) (length pre) v = Ok (pre ++ v :: zs).
Proof.
  induction pre as [| x pre IH]; simpl; [reflexivity |].
  rewrite IH. reflexivity.
Qed.

(** When every pair can be measured, the loop overwrites one zero per pair
    with the distance of that pair. *)
Lemma distances_loop_spec (P : f64 -> Prop) (pairs : list (point * point)) :
  Forall (fun pr => exists d, compute_distance (fst pr) (snd pr) = Ok d /\ P d) pairs ->
  forall pre zs : array,
    length zs = length pairs ->
    exists ds : array,
      distances_loop (pre ++ zs) (length pre) pairs = Ok (pre ++ ds) /\
      length ds = length pairs /\ Forall P ds.
Proof.
  induction 1 as [| [p1 p2] pairs [d [Hd HP]] _ IH]; intros pre zs Hlen.
  - destruct zs; [| discriminate]. exists []. simpl. auto.
  - destruct zs as [| z zs]; [discriminate |]. simpl in Hlen, Hd.
    injection Hlen as Hlen.
    destruct (IH (pre ++ [d]) zs Hlen) as [ds [Hloop [Hds HPs]]].
    exists (d :: ds). simpl. rewrite Hd. simpl.
    rewrite store_app. simpl.
    replace (pre ++ d :: zs) with ((pre ++ [d]) ++ zs)
      by (rewrite <- app_assoc; reflexivity).
    replace (S (length pre)) with (length (pre ++ [d]))
      by (rewrite length_app; simpl; lia).
    rewrite Hloop, <- app_assoc. simpl. auto.
Qed.

Lemma zeros_of_nat (n : nat) : zeros (Z.of_nat n) = Ok (repeat (Fin 0) n).
Proof.
  unfold zeros. destruct (Z.ltb_spec (Z.of_nat n) 0); [lia |].
  now rewrite Nat2Z.id.
Qed.

Lemma zeros_pred (n : nat) :
  (1 <= n)%nat -> zeros (Z.of_nat n - 1) = Ok (repeat (Fin 0) (n - 1)).
Proof.
  intros H. replace (Z.of_nat n - 1)%Z with (Z.of_nat (n - 1)) by lia.
  apply zeros_of_nat.
Qed.

Lemma combine_tl_length {A : Type} (l : list A) :
  length (combine l (tl l)) = (length l - 1)%nat.
Proof.
  rewrite length_combine. destruct l; cbn [tl length]; lia.
Qed.

Lemma in_combine_tl {A : Type} (l : list A) (a b : A) :
  In (a, b) (combine l (tl l)) -> In a l /\ In b l.
Proof.
  intros H. split.
  - eapply in_combine_l; eassumption.
  - apply in_combine_r in H. destruct l; simpl in *; auto.
Qed.

Lemma items_length (p : position) : length (items p) = len p.
Proof.
  destruct p; simpl; apply length_map.
Qed.

(** ** Orientation *)

Lemma transpose_rectangular (p : position) : rectangular (transpose p).
Proof.
  destruct p as [xs | c rows]; simpl; [exact I |].
  apply Forall_map, Forall_forall. intros j _. apply length_map.
Qed.

Lemma oriented_rectangular (chk : position -> orientation) (p : position) :
  rectangular p -> rectangular (oriented chk p).
Proof.
  intros H. unfold oriented. destruct (is_row (chk p)); [apply transpose_rectangular | exact H].
Qed.

Lemma nth_finite (j : nat) (r : array) :
  Forall is_finite r -> is_finite (nth j r (Fin 0)).
Proof.
  intros H. revert j. induction H as [| x r Hx _ IH]; intros [| j]; simpl; auto.
Qed.

Lemma transpose_finite (p : position) :
  finite_position p -> finite_position (transpose p).
Proof.
  destruct p as [xs | c rows]; simpl; [auto |].
  intros H. apply Forall_map, Forall_forall. intros j _.
  apply Forall_map. eapply Forall_impl; [| exact H].
  intros r Hr. now apply nth_finite.
Qed.

Lemma oriented_finite (chk : position -> orientation) (p : position) :
  finite_position p -> finite_position (oriented chk p).
Proof.
  intros H. unfold oriented. destruct (is_row (chk p)); [now apply transpose_finite | exact H].
Qed.

(** ** Distances *)

Lemma Fsum_squares (xs : array) :
  Forall is_finite xs ->
  exists q, Fsum (map (fun x => Fmul x x) xs) = Fin q /\ 0 <= q.
Proof.
  induction 1 as [| x xs Hx _ [q [IH Hq]]]; [exists 0; split; [reflexivity | lra] |].
  destruct x as [a | | |]; simpl in Hx; try contradiction.
  exists (a * a + q). split.
  - unfold Fsum in *. simpl. rewrite IH. reflexivity.
  - nra.
Qed.

Lemma norm_finite (p : point) :
  finite_point p -> exists r, norm p = Fin r /\ 0 <= r.
Proof.
  intros H. destruct (Fsum_squares (ravel p) H) as [q [Hq Hpos]].
  exists (sqrt q). unfold norm. rewrite Hq. simpl. split.
  - sign_of q; try reflexivity. lra.
  - apply sqrt_pos.
Qed.

Lemma Fsub_finite (x y : f64) : is_finite x -> is_finite y -> is_finite (Fsub x y).
Proof.
  destruct x, y; simpl; auto.
Qed.

Lemma map2_Fsub_finite (xs ys : array) :
  Forall is_finite xs -> Forall is_finite ys -> Forall is_finite (map2 Fsub xs ys).
Proof.
  intros Hx. revert ys. induction Hx as [| x xs Hx _ IH]; intros ys Hy; [constructor |].
  destruct Hy as [| y ys Hy Hys]; simpl; constructor; auto using Fsub_finite.
Qed.

(** Two items of one rectangular array can always be measured, and their
    distance is a non-negative number when the coordinates are finite. *)
Lemma compute_distance_items (pos : position) (p1 p2 : point) :
  rectangular pos ->
  In p1 (items pos) -> In p2 (items pos) ->
  exists d, compute_distance p1 p2 = Ok d /\
            (finite_position pos -> exists r, d = Fin r /\ 0 <= r).
Proof.
  intros Hrect H1 H2. destruct pos as [xs | c rows]; simpl in *.
  - apply in_map_iff in H1 as [a [<- Ha]]. apply in_map_iff in H2 as [b [<- Hb]].
    eexists. split; [reflexivity |]. intros Hfin.
    apply norm_finite. unfold finite_point. simpl.
    rewrite Forall_forall in Hfin. constructor; [| constructor].
    apply Fsub_finite; auto.
  - apply in_map_iff in H1 as [r1 [<- Hr1]]. apply in_map_iff in H2 as [r2 [<- Hr2]].
    rewrite Forall_forall in Hrect.
    unfold compute_distance. simpl.
    rewrite broadcast2_same by (rewrite (Hrect r1 Hr1), (Hrect r2 Hr2); reflexivity).
    eexists. split; [reflexivity |]. intros Hfin.
    apply norm_finite. unfold finite_point. simpl.
    rewrite Forall_forall in Hfin. apply map2_Fsub_finite; auto.
Qed.

(** On a rectangular array with at least one sample, [compute_distances]
    returns one distance per pair of consecutive samples. *)
Lemma compute_distances_ok (chk : position -> orientation) (pos : position) :
  rectangular pos ->
  (1 <= len (oriented chk pos))%nat ->
  exists ds : array,
    compute_distances chk pos = Ok ds /\
    length ds = (len (oriented chk pos) - 1)%nat /\
    Forall (fun d => finite_position pos -> exists r, d = Fin r /\ 0 <= r) ds.
Proof.
  intros Hrect Hlen. unfold compute_distances. cbv zeta.
  rewrite zeros_pred by exact Hlen. simpl bind.
  set (pos' := oriented chk pos) in *.
  assert (Hpairs :
    Forall (fun pr => exists d, compute_distance (fst pr) (snd pr) = Ok d /\
                      (finite_position pos -> exists r, d = Fin r /\ 0 <= r))
      (combine (items pos') (tl (items pos')))).
  { apply Forall_forall. intros [p1 p2] Hin. apply in_combine_tl in Hin as [H1 H2].
    destruct (compute_distance_items pos' p1 p2) as [d [Hd Hf]]; auto.
    - apply oriented_rectangular; assumption.
    - exists d. split; [exact Hd |]. intros Hfin. apply Hf.
      apply oriented_finite; assumption. }
  destruct (distances_loop_spec _ _ Hpairs [] (repeat (Fin 0) (len pos' - 1)))
    as [ds [Hloop [Hds HP]]].
  { rewrite repeat_length, combine_tl_length, items_length. reflexivity. }
  simpl in Hloop. exists ds. split; [exact Hloop |]. split; [| exact HP].
  rewrite Hds, combine_tl_length, items_length. reflexivity.
Qed.

(** C6, as amended: [compute_distances] makes no check on the number of
    samples.  On an empty sequence it fails with the [ValueError] of the
    allocation of a vector of negative length; on a sequence of exactly one
    sample it does not fail and returns the empty vector; on a sequence of
    [n >= 2] samples it succeeds with [n - 1] distances. *)
Theorem compute_distances_by_sample_count
  (chk : position -> orientation) (pos : position) :
  rectangular pos ->
  (len (oriented chk pos) = 0%nat -> compute_distances chk pos = Err ValueError) /\
  (len (oriented chk pos) = 1%nat -> compute_distances chk pos = Ok []) /\
  ((2 <= len (oriented chk pos))%nat ->
   exists ds, compute_distances chk pos = Ok ds /\
              length ds = (len (oriented chk pos) - 1)%nat).
Proof.
  intros Hrect. split; [| split].
  - intros H0. unfold compute_distances. cbv zeta. rewrite H0. reflexivity.
  - intros H1. destruct (compute_distances_ok chk pos Hrect) as [ds [Hok [Hl _]]]; [lia |].
    rewrite H1 in Hl. destruct ds; [exact Hok | discriminate].
  - intros H2. destruct (compute_distances_ok chk pos Hrect) as [ds [Hok [Hl _]]]; [lia |].
    eauto.
Qed.

Lemma compute_distances_by_sample_count_witness :
  (len (oriented check_array_orientation_by_shape (Pos1 [Fin 5])) = 0%nat ->
   compute_distances check_array_orientation_by_shape (Pos1 [Fin 5]) = Err ValueError) /\
  (len (oriented check_array_orientation_by_shape (Pos1 [Fin 5])) = 1%nat ->
   compute_distances check_array_orientation_by_shape (Pos1 [Fin 5]) = Ok []) /\
  ((2 <= len (oriented check_array_orientation_by_shape (Pos1 [Fin 5])))%nat ->
   exists ds,
     compute_distances check_array_orientation_by_shape (Pos1 [Fin 5]) = Ok ds /\
     length ds
     = (len (oriented check_array_orientation_by_shape (Pos1 [Fin 5])) - 1)%nat).
Proof.
  apply (compute_distances_by_sample_count check_array_orientation_by_shape
           (Pos1 [Fin 5])).
  exact I.
Defined.

(** C6, as stated, fails: a sequence of a single sample is not rejected,
    the empty vector of distances is returned. *)
Lemma compute_distances_single_sample :
  len (oriented check_array_orientation_by_shape (Pos1 [Fin 5])) = 1%nat /\
  compute_distances check_array_orientation_by_shape (Pos1 [Fin 5]) = Ok [].
Proof.
  split; reflexivity.
Qed.

(** ** Distances to a location *)

Lemma map_Fsub_finite_l (a : f64) (ys : array) :
  is_finite a -> Forall is_finite ys -> Forall is_finite (map (fun y => Fsub a y) ys).
Proof.
  intros Ha Hy. apply Forall_map. eapply Forall_impl; [| exact Hy].
  intros y Hfy. now apply Fsub_finite.
Qed.

Lemma map_Fsub_finite_r (b : f64) (xs : array) :
  is_finite b -> Forall is_finite xs -> Forall is_finite (map (fun x => Fsub x b) xs).
Proof.
  intros Hb Hx. apply Forall_map. eapply Forall_impl; [| exact Hx].
  intros x Hfx. now apply Fsub_finite.
Qed.

Lemma compute_distance_location (pos : position) (p location : point) :
  rectangular pos -> finite_position pos ->
  matching pos location -> finite_point location ->
  In p (items pos) ->
  exists r, compute_distance p location = Ok (Fin r) /\ 0 <= r.
Proof.
  intros Hrect Hfin Hm Hloc Hin. unfold finite_point in Hloc.
  destruct pos as [xs | c rows]; simpl in *.
  - apply in_map_iff in Hin as [a [<- Ha]].
    rewrite Forall_forall in Hfin. specialize (Hfin a Ha).
    destruct location as [b | ys]; simpl in *.
    + inversion Hloc; subst.
      destruct (norm_finite (P0 (Fsub a b))) as [r [Hr Hpos]].
      { repeat constructor. now apply Fsub_finite. }
      exists r. unfold compute_distance. simpl. rewrite Hr. auto.
    + destruct (norm_finite (P1 (map (fun y => Fsub a y) ys))) as [r [Hr Hpos]].
      { now apply map_Fsub_finite_l. }
      exists r. unfold compute_distance. simpl. rewrite Hr. auto.
  - apply in_map_iff in Hin as [row1 [<- Hrow]].
    rewrite Forall_forall in Hfin, Hrect.
    specialize (Hfin row1 Hrow). specialize (Hrect row1 Hrow).
    destruct location as [b | ys]; simpl in *.
    + inversion Hloc; subst.
      destruct (norm_finite (P1 (map (fun x => Fsub x b) row1))) as [r [Hr Hpos]].
      { now apply map_Fsub_finite_r. }
      exists r. unfold compute_distance. simpl. rewrite Hr. auto.
    + destruct (norm_finite (P1 (map2 Fsub row1 ys))) as [r [Hr Hpos]].
      { now apply map2_Fsub_finite. }
      exists r. unfold compute_distance. simpl.
      rewrite broadcast2_same by congruence. simpl. rewrite Hr. auto.
Qed.

Lemma compute_distances_to_location_ok
  (chk : position -> orientation) (pos : position) (location : point) :
  rectangular pos -> finite_position pos ->
  matching (oriented chk pos) location -> finite_point location ->
  exists ds : array,
    compute_distances_to_location chk pos location = Ok ds /\
    length ds = len (oriented chk pos) /\
    Forall (fun d => exists r, d = Fin r /\ 0 <= r) ds.
Proof.
  intros Hrect Hfin Hm Hloc. unfold compute_distances_to_location. cbv zeta.
  rewrite zeros_of_nat. simpl bind.
  set (pos' := oriented chk pos) in *.
  assert (Hpairs :
    Forall (fun pr => exists d, compute_distance (fst pr) (snd pr) = Ok d /\
                      exists r, d = Fin r /\ 0 <= r)
      (map (fun p => (p, location)) (items pos'))).
  { apply Forall_map, Forall_forall. intros p Hin. simpl.
    destruct (compute_distance_location pos' p location) as [r [Hr Hpos]]; eauto.
    - now apply oriented_rectangular.
    - now apply oriented_finite. }
  destruct (distances_loop_spec _ _ Hpairs [] (repeat (Fin 0) (len pos')))
    as [ds [Hloop [Hds HP]]].
  { rewrite repeat_length, length_map, items_length. reflexivity. }
  simpl in Hloop. exists ds. split; [exact Hloop |]. split; [| exact HP].
  rewrite Hds, length_map, items_length. reflexivity.
Qed.

(** C9: for every rectangular position array of finite coordinates that
    holds [n >= 2] samples once oriented, and every location of finite
    coordinates and matching dimensionality, [compute_distances] returns
    exactly [n - 1] non-negative floats and
    [compute_distances_to_location] exactly [n] non-negative floats. *)
Theorem distance_vectors_nonnegative
  (chk : position -> orientation) (pos : position) (location : point) :
  rectangular pos -> finite_position pos ->
  (2 <= len (oriented chk pos))%nat ->
  matching (oriented chk pos) location -> finite_point location ->
  (exists ds, compute_distances chk pos = Ok ds /\
              length ds = (len (oriented chk pos) - 1)%nat /\
              Forall nonneg ds) /\
  (exists ds, compute_distances_to_location chk pos location = Ok ds /\
              length ds = len (oriented chk pos) /\
              Forall nonneg ds).
Proof.
  intros Hrect Hfin Hn Hm Hloc. split.
  - destruct (compute_distances_ok chk pos Hrect) as [ds [Hok [Hl HP]]]; [lia |].
    exists ds. split; [exact Hok |]. split; [exact Hl |].
    eapply Forall_impl; [| exact HP].
    intros d Hd. destruct (Hd Hfin) as [r [-> Hr]]. exact Hr.
  - destruct (compute_distances_to_location_ok chk pos location Hrect Hfin Hm Hloc)
      as [ds [Hok [Hl HP]]].
    exists ds. split; [exact Hok |]. split; [exact Hl |].
    eapply Forall_impl; [| exact HP].
    intros d [r [-> Hr]]. exact Hr.
Qed.

Lemma distance_vectors_nonnegative_witness :
  (exists ds,
     compute_distances check_array_orientation_by_shape
       (Pos2 4 [[Fin 1; Fin 2; Fin 2; Fin 3]; [Fin 1; Fin 1; Fin 2; Fin 3]])
     = Ok ds /\
     length ds = 3%nat /\ Forall nonneg ds) /\
  (exists ds,
     compute_distances_to_location check_array_orientation_by_shape
       (Pos2 4 [[Fin 1; Fin 2; Fin 2; Fin 3]; [Fin 1; Fin 1; Fin 2; Fin 3]])
       (P1 [Fin 0; Fin 0])
     = Ok ds /\
     length ds = 4%nat /\ Forall nonneg ds).
Proof.
  apply (distance_vectors_nonnegative check_array_orientation_by_shape
           (Pos2 4 [[Fin 1; Fin 2; Fin 2; Fin 3]; [Fin 1; Fin 1; Fin 2; Fin 3]])
           (P1 [Fin 0; Fin 0])).
  - repeat constructor.
  - repeat constructor.
  - simpl. lia.
  - reflexivity.
  - repeat constructor.
Defined.

(** ** Cumulative distances *)

Lemma nondecreasing_tail (x : f64) (xs : array) :
  nondecreasing (x :: xs) -> nondecreasing xs.
Proof.
  destruct xs as [| y ys]; simpl; [auto | intros [_ H]; exact H].
Qed.

Lemma cumsum_from_length (acc : f64) (xs : array) :
  length (cumsum_from acc xs) = length xs.
Proof.
  revert acc. induction xs as [| x xs IH]; intros acc; simpl; [reflexivity |].
  now rewrite IH.
Qed.

(** Adding non-negative numbers to a running total never lowers it. *)
Lemma cumsum_from_nondecreasing (ds : array) :
  Forall (fun d => exists r, d = Fin r /\ 0 <= r) ds ->
  forall a : R, nondecreasing (Fin a :: cumsum_from (Fin a) ds).
Proof.
  induction 1 as [| d ds [r [-> Hr]] _ IH]; intros a; [exact I |].
  cbn [cumsum_from]. simpl Fadd. split.
  - simpl. lra.
  - apply IH.
Qed.

(** C10: for every rectangular position array of finite coordinates that
    holds [n >= 2] samples once oriented, [compute_cumulative_distances]
    returns a vector of [n - 1] entries, each of which is at most the
    next. *)
Theorem cumulative_distances_nondecreasing
  (chk : position -> orientation) (pos : position) :
  rectangular pos -> finite_position pos ->
  (2 <= len (oriented chk pos))%nat ->
  exists cs, compute_cumulative_distances chk pos = Ok cs /\
             length cs = (len (oriented chk pos) - 1)%nat /\
             nondecreasing cs.
Proof.
  intros Hrect Hfin Hn.
  destruct (compute_distances_ok chk pos Hrect) as [ds [Hok [Hl HP]]]; [lia |].
  exists (cumsum ds). unfold compute_cumulative_distances. rewrite Hok. simpl.
  split; [reflexivity |]. split.
  - rewrite <- Hl. apply cumsum_from_length.
  - apply (nondecreasing_tail (Fin 0)). apply cumsum_from_nondecreasing.
    eapply Forall_impl; [| exact HP]. intros d Hd. exact (Hd Hfin).
Qed.

Lemma cumulative_distances_nondecreasing_witness :
  exists cs,
    compute_cumulative_distances check_array_orientation_by_shape
      (Pos1 [Fin 1; Fin 2; Fin 4; Fin 5]) = Ok cs /\
    length cs = 3%nat /\ nondecreasing cs.
Proof.
  apply (cumulative_distances_nondecreasing check_array_orientation_by_shape
           (Pos1 [Fin 1; Fin 2; Fin 4; Fin 5])).
  - exact I.
  - repeat constructor.
  - simpl. lia.
Defined.

(** ** Speed *)

Lemma nth_error_map2 (op : f64 -> f64 -> f64) (xs ys : array) (i : nat) (x y : f64) :
  nth_error xs i = Some x -> nth_error ys i = Some y ->
  nth_error (map2 op xs ys) i = Some (op x y).
Proof.
  revert ys i. induction xs as [| x0 xs IH]; intros [| y0 ys] [| i] Hx Hy;
    simpl in *; try discriminate.
  - congruence.
  - now apply IH.
Qed.

Lemma broadcast2_mismatch (op : f64 -> f64 -> f64) (xs ys : array) :
  length xs <> length ys -> length xs <> 1%nat -> length ys <> 1%nat ->
  broadcast2 op xs ys = Err ValueError.
Proof.
  intros Hne Hx Hy. unfold broadcast2.
  destruct (Nat.eqb_spec (length xs) (length ys)); [contradiction |].
  destruct xs as [| x [| x' xs]]; simpl in Hx; try congruence;
    destruct ys as [| y [| y' ys]]; simpl in Hy; try congruence; reflexivity.
Qed.

(** C7, as amended: for every rectangular position array of finite
    coordinates that holds [n >= 2] samples once oriented and every
    [bin_times] vector of length [n - 1] with a zero at some index,
    [compute_speed] raises nothing; at that index it yields plus infinity
    when the distance there is positive and NaN when the distance there is
    zero. *)
Theorem speed_at_zero_duration
  (chk : position -> orientation) (pos : position) (bin_times : array) (i : nat) :
  rectangular pos -> finite_position pos ->
  (2 <= len (oriented chk pos))%nat ->
  length bin_times = (len (oriented chk pos) - 1)%nat ->
  nth_error bin_times i = Some (Fin 0) ->
  exists (ds speed : array) (d : R),
    compute_distances chk pos = Ok ds /\
    compute_speed chk pos bin_times = Ok speed /\
    nth_error ds i = Some (Fin d) /\ 0 <= d /\
    (d = 0 -> nth_error speed i = Some NaN) /\
    (0 < d -> nth_error speed i = Some PInf).
Proof.
  intros Hrect Hfin Hn Hlen Hi.
  destruct (compute_distances_ok chk pos Hrect) as [ds [Hok [Hl HP]]]; [lia |].
  assert (Hlt : (i < length ds)%nat).
  { rewrite Hl, <- Hlen. apply nth_error_Some. congruence. }
  destruct (nth_error ds i) as [di |] eqn:Hdi;
    [| apply nth_error_None in Hdi; lia].
  rewrite Forall_forall in HP.
  destruct (HP di (nth_error_In _ _ Hdi) Hfin) as [d [-> Hd]].
  exists ds, (map2 Fdiv ds bin_times), d.
  split; [exact Hok |]. split.
  { unfold compute_speed. rewrite Hok. simpl.
    apply broadcast2_same. congruence. }
  split; [exact Hdi |]. split; [exact Hd |].
  rewrite (nth_error_map2 Fdiv ds bin_times i _ _ Hdi Hi). simpl.
  rewrite sgn_zero. simpl. split.
  - intros ->. now rewrite sgn_zero.
  - intros Hpos. now rewrite (sgn_pos d Hpos).
Qed.

Lemma speed_at_zero_duration_witness :
  exists (ds speed : array) (d : R),
    compute_distances check_array_orientation_by_shape
      (Pos1 [Fin 1; Fin 2; Fin 4]) = Ok ds /\
    compute_speed check_array_orientation_by_shape
      (Pos1 [Fin 1; Fin 2; Fin 4]) [Fin 1; Fin 0] = Ok speed /\
    nth_error ds 1 = Some (Fin d) /\ 0 <= d /\
    (d = 0 -> nth_error speed 1 = Some NaN) /\
    (0 < d -> nth_error speed 1 = Some PInf).
Proof.
  apply (speed_at_zero_duration check_array_orientation_by_shape
           (Pos1 [Fin 1; Fin 2; Fin 4]) [Fin 1; Fin 0] 1).
  - exact I.
  - repeat constructor.
  - simpl. lia.
  - reflexivity.
  - reflexivity.
Defined.

(** C7, as stated, fails: between two equal samples the distance is zero,
    and zero over a zero duration is NaN, neither an exception nor an
    infinity. *)
Lemma speed_zero_over_zero :
  nth_error [Fin 0] 0 = Some (Fin 0) /\
  compute_speed check_array_orientation_by_shape (Pos1 [Fin 1; Fin 1]) [Fin 0]
  = Ok [NaN].
Proof.
  split; [reflexivity |].
  unfold compute_speed, compute_distances, compute_distance. simpl.
  unfold norm, Fsum. simpl.
  replace ((1 + - (1)) * (1 + - (1)) + 0) with 0 by lra.
  rewrite sgn_zero. rewrite sqrt_0. unfold broadcast2. simpl.
  rewrite !sgn_zero. reflexivity.
Qed.

(** C8, as amended: for every rectangular position array that holds
    [n >= 3] samples once oriented and every [bin_times] vector whose
    length is neither [n - 1] nor 1, [compute_speed] fails with the
    [ValueError] of numpy's broadcasting. *)
Theorem speed_length_mismatch
  (chk : position -> orientation) (pos : position) (bin_times : array) :
  rectangular pos ->
  (3 <= len (oriented chk pos))%nat ->
  length bin_times <> (len (oriented chk pos) - 1)%nat ->
  length bin_times <> 1%nat ->
  compute_speed chk pos bin_times = Err ValueError.
Proof.
  intros Hrect Hn Hne H1.
  destruct (compute_distances_ok chk pos Hrect) as [ds [Hok [Hl _]]]; [lia |].
  unfold compute_speed. rewrite Hok. simpl.
  apply broadcast2_mismatch; [congruence | lia | exact H1].
Qed.

Lemma speed_length_mismatch_witness :
  compute_speed check_array_orientation_by_shape
    (Pos1 [Fin 1; Fin 2; Fin 4; Fin 5]) [Fin 1; Fin 1]
  = Err ValueError.
Proof.
  apply speed_length_mismatch.
  - exact I.
  - simpl. lia.
  - simpl. lia.
  - simpl. lia.
Defined.

(** C8, as stated, fails: a [bin_times] vector of length 1 is broadcast
    over the three distances and a result is produced. *)
Lemma speed_broadcast_single_duration :
  length [Fin 2] <> (len (oriented check_array_orientation_by_shape
                            (Pos1 [Fin 1; Fin 2; Fin 4; Fin 5])) - 1)%nat /\
  exists speed,
    compute_speed check_array_orientation_by_shape
      (Pos1 [Fin 1; Fin 2; Fin 4; Fin 5]) [Fin 2] = Ok speed /\
    length speed = 3%nat.
Proof.
  split; [simpl; lia |].
  unfold compute_speed, compute_distances, compute_distance. simpl.
  eexists. split; reflexivity.
Qed.

(** ** Scaling the occupancy *)

(** Case analysis on every sign test of the goal. *)
Ltac split_signs :=
  repeat match goal with
    | |- context [sgn ?r] =>
        let H := fresh "Hs" in
        let E := fresh "Es" in
        destruct (sgn_spec r) as [[H E] | [[H E] | [H E]]];
        rewrite E; simpl
    end.

(** Closes a goal between two floats after [split_signs], the constant
    [c] being positive. *)
Ltac close_float c Hc :=
  pose proof (Rinv_0_lt_compat c Hc);
  unfold Rdiv in *;
  first [ reflexivity
        | exfalso; nra
        | f_equal; field; lra
        | f_equal; nra ].

Ltac float_cases c Hc := simpl; split_signs; close_float c Hc.

Section Scaling.

Variable c : R.
Hypothesis c_pos : 0 < c.

Lemma Fdiv_scale_r (s t : f64) :
  Fdiv s (Fmul (Fin c) t) = unscale c (Fdiv s t).
Proof.
  unfold unscale. destruct s as [a | | |], t as [b | | |]; float_cases c c_pos.
Qed.

Lemma Fdiv_scale_both (o t : f64) :
  Fdiv (Fmul (Fin c) o) (Fmul (Fin c) t) = Fdiv o t.
Proof.
  destruct o as [a | | |], t as [b | | |]; float_cases c c_pos.
Qed.

Lemma Fdiv_unscale_both (n r : f64) :
  Fdiv (unscale c n) (unscale c r) = Fdiv n r.
Proof.
  unfold unscale. destruct n as [a | | |], r as [b | | |]; float_cases c c_pos.
Qed.

Lemma Feqb_unscale (r : f64) :
  Feqb (unscale c r) (Fin 0) = Feqb r (Fin 0).
Proof.
  unfold unscale. destruct r as [a | | |]; simpl; split_signs; try reflexivity;
    try lra.
  pose proof (Rinv_0_lt_compat c c_pos).
  destruct (Req_dec_T (a / c) 0) as [E | E], (Req_dec_T a 0) as [E' | E'];
    try reflexivity; exfalso; unfold Rdiv in *; nra.
Qed.

Lemma Fmul_unscale_r (x y : f64) :
  Fmul x (unscale c y) = unscale c (Fmul x y).
Proof.
  unfold unscale. destruct x as [a | | |], y as [b | | |]; float_cases c c_pos.
Qed.

Lemma Fmul_unscale_l (x y : f64) :
  Fmul (unscale c x) y = unscale c (Fmul x y).
Proof.
  unfold unscale. destruct x as [a | | |], y as [b | | |]; float_cases c c_pos.
Qed.

Lemma Fadd_unscale (x y : f64) :
  Fadd (unscale c x) (unscale c y) = unscale c (Fadd x y).
Proof.
  unfold unscale. destruct x as [a | | |], y as [b | | |]; float_cases c c_pos.
Qed.

Lemma nan_to_zero_unscale (x : f64) :
  nan_to_zero (unscale c x) = unscale c (nan_to_zero x).
Proof.
  unfold unscale, nan_to_zero. destruct x as [a | | |]; float_cases c c_pos.
Qed.

Lemma Fadd_scale (x y : f64) :
  Fadd (Fmul (Fin c) x) (Fmul (Fin c) y) = Fmul (Fin c) (Fadd x y).
Proof.
  destruct x as [a | | |], y as [b | | |]; float_cases c c_pos.
Qed.

Lemma nan_to_zero_scale (x : f64) :
  nan_to_zero (Fmul (Fin c) x) = Fmul (Fin c) (nan_to_zero x).
Proof.
  unfold nan_to_zero. destruct x as [a | | |]; float_cases c c_pos.
Qed.

Lemma nansum_unscale (xs : array) :
  nansum (map (unscale c) xs) = unscale c (nansum xs).
Proof.
  induction xs as [| x xs IH].
  - unfold nansum, unscale. float_cases c c_pos.
  - cbn [map]. rewrite !nansum_cons, IH, nan_to_zero_unscale. apply Fadd_unscale.
Qed.

Lemma nansum_scale (xs : array) :
  nansum (scale c xs) = Fmul (Fin c) (nansum xs).
Proof.
  unfold scale. induction xs as [| x xs IH].
  - unfold nansum. simpl. f_equal. lra.
  - cbn [map]. rewrite !nansum_cons, IH, nan_to_zero_scale. apply Fadd_scale.
Qed.

Lemma combine_scale (spike_map occupancy : array) :
  combine spike_map (scale c occupancy)
  = map (fun b : f64 * f64 => (fst b, Fmul (Fin c) (snd b)))
      (combine spike_map occupancy).
Proof.
  revert occupancy. induction spike_map as [| s ss IH]; intros [| o os];
    try reflexivity.
  cbn [scale map combine fst snd]. f_equal. apply IH.
Qed.

Lemma filter_map {A B : Type} (f : B -> bool) (g : A -> B) (l : list A) :
  filter f (map g l) = map g (filter (fun x => f (g x)) l).
Proof.
  induction l as [| x l IH]; simpl; [reflexivity |].
  destruct (f (g x)); simpl; now rewrite IH.
Qed.

Lemma firing_scale (s o : f64) :
  firing (s, Fmul (Fin c) o) = firing (s, o).
Proof.
  unfold firing, Fnonzero. cbn [fst snd].
  now rewrite Fdiv_scale_r, Feqb_unscale.
Qed.

Lemma bin_term_scale (total rate s o : f64) :
  bin_term (Fmul (Fin c) total) (unscale c rate) (s, Fmul (Fin c) o)
  = unscale c (bin_term total rate (s, o)).
Proof.
  unfold bin_term.
  rewrite Fdiv_scale_both, Fdiv_scale_r, Fdiv_unscale_both.
  now rewrite Fmul_unscale_r, Fmul_unscale_l.
Qed.

(** C5: for every spike map, every occupancy array of the same shape and
    every positive constant [c], the spatial information computed with the
    occupancy scaled elementwise by [c] equals the one computed with the
    original occupancy, in exact arithmetic. *)
Theorem information_scale_invariant (spike_map occupancy : array) :
  length spike_map = length occupancy ->
  _compute_spatial_information spike_map (scale c occupancy)
  = _compute_spatial_information spike_map occupancy.
Proof.
  intros Hlen.
  rewrite !information_per_bin by (unfold scale; rewrite ?length_map; exact Hlen).
  cbv zeta. f_equal.
  rewrite nansum_scale, Fdiv_scale_r, Feqb_unscale.
  destruct (Feqb (Fdiv (nansum spike_map) (nansum occupancy)) (Fin 0));
    [reflexivity |].
  rewrite combine_scale, filter_map, map_map.
  rewrite (filter_ext _ firing) by (intros [s o]; apply firing_scale).
  rewrite (map_ext _ (fun b => unscale c
                        (bin_term (nansum occupancy)
                           (Fdiv (nansum spike_map) (nansum occupancy)) b)))
    by (intros [s o]; apply bin_term_scale).
  rewrite <- (map_map (bin_term _ _) (unscale c)).
  rewrite nansum_unscale. apply Fdiv_unscale_both.
Qed.

End Scaling.

Lemma information_scale_invariant_witness :
  _compute_spatial_information [Fin 2; Fin 0; Fin 1] (scale 3 [Fin 1; Fin 3; Fin 0])
  = _compute_spatial_information [Fin 2; Fin 0; Fin 1] [Fin 1; Fin 3; Fin 0].
Proof.
  apply information_scale_invariant.
  - lra.
  - reflexivity.
Defined.

(** ** The examples of the docstrings *)

Lemma Fsqrt_square (r : R) : 0 <= r -> Fsqrt (Fin (r * r)) = Fin r.
Proof.
  intros Hr. simpl. rewrite sqrt_square by exact Hr.
  destruct (sgn_spec (r * r)) as [[H E] | [[H E] | [H E]]]; rewrite E;
    [exfalso; nra | reflexivity | reflexivity].
Qed.

(** Rewrites the norm of a concrete point as the square root of [r * r]. *)
Ltac norm_is r :=
  unfold norm, Fsum; cbn [ravel map fold_right Fmul Fadd];
  match goal with
  | |- context [Fsqrt (Fin ?e)] =>
      replace e with (r * r) by lra; rewrite (Fsqrt_square r) by lra
  end.

Example compute_distance_1d :
  compute_distance (P1 [Fin 2]) (P1 [Fin 5]) = Ok (Fin 3).
Proof.
  unfold compute_distance. simpl. norm_is 3%R. reflexivity.
Qed.

Example compute_distance_2d :
  compute_distance (P1 [Fin 1; Fin 6]) (P1 [Fin 5; Fin 9]) = Ok (Fin 5).
Proof.
  unfold compute_distance. simpl. norm_is 5%R. reflexivity.
Qed.

Example compute_distances_1d :
  compute_distances check_array_orientation_by_shape
    (Pos1 [Fin 1; Fin 2; Fin 4; Fin 5])
  = Ok [Fin 1; Fin 2; Fin 1].
Proof.
  unfold compute_distances, compute_distance. simpl.
  norm_is 1%R. norm_is 2%R. norm_is 1%R. reflexivity.
Qed.

Example compute_cumulative_distances_1d :
  compute_cumulative_distances check_array_orientation_by_shape
    (Pos1 [Fin 1; Fin 2; Fin 4; Fin 5])
  = Ok [Fin 1; Fin 3; Fin 4].
Proof.
  unfold compute_cumulative_distances. rewrite compute_distances_1d.
  unfold cumsum. simpl. repeat f_equal; lra.
Qed.

Example compute_speed_1d :
  compute_speed check_array_orientation_by_shape
    (Pos1 [Fin 1; Fin 2; Fin 4; Fin 5]) [Fin 1; Fin 1; Fin (1 / 2)]
  = Ok [Fin 1; Fin 2; Fin 2].
Proof.
  unfold compute_speed. rewrite compute_distances_1d.
  unfold broadcast2. fcalc. repeat f_equal; lra.
Qed.

Example compute_distances_2d :
  compute_distances check_array_orientation_by_shape
    (Pos2 4 [[Fin 1; Fin 2; Fin 2; Fin 3]; [Fin 1; Fin 1; Fin 2; Fin 3]])
  = Ok [Fin 1; Fin 1; Fin (sqrt 2)].
Proof.
  unfold compute_distances, compute_distance. simpl.
  norm_is 1%R. norm_is 1%R. simpl.
  replace ((2 + - (3)) * (2 + - (3)) + ((2 + - (3)) * (2 + - (3)) + 0)) with 2 by lra.
  rewrite (sgn_pos 2) by lra. reflexivity.
Qed.

(** * Further properties of the kinematics functions *)

(** ** Symmetry and identity of the distance *)

Lemma square_diff_swap (a b : f64) :
  Fmul (Fsub a b) (Fsub a b) = Fmul (Fsub b a) (Fsub b a).
Proof.
  destruct a as [x | | |], b as [y | | |]; simpl; try reflexivity.
  f_equal. ring.
Qed.

Lemma squares_map2_swap (xs ys : array) :
  map (fun x => Fmul x x) (map2 Fsub xs ys)
  = map (fun x => Fmul x x) (map2 Fsub ys xs).
Proof.
  revert ys. induction xs as [| x xs IH]; intros [| y ys]; try reflexivity.
  cbn [map2 map]. now rewrite square_diff_swap, IH.
Qed.

Lemma norm_map2_swap (xs ys : array) :
  norm (P1 (map2 Fsub xs ys)) = norm (P1 (map2 Fsub ys xs)).
Proof.
  unfold norm. cbn [ravel]. now rewrite squares_map2_swap.
Qed.

Lemma norm_map_swap (a : f64) (ys : array) :
  norm (P1 (map (fun y => Fsub a y) ys)) = norm (P1 (map (fun y => Fsub y a) ys)).
Proof.
  unfold norm. cbn [ravel]. rewrite !map_map. f_equal. f_equal.
  apply map_ext. intros y. apply square_diff_swap.
Qed.

Lemma broadcast2_norm_swap (xs ys : array) :
  (d <- broadcast2 Fsub xs ys ;; Ok (norm (P1 d)))
  = (d <- broadcast2 Fsub ys xs ;; Ok (norm (P1 d))).
Proof.
  unfold broadcast2.
  destruct (Nat.eqb_spec (length xs) (length ys)) as [E | N].
  - rewrite <- E, Nat.eqb_refl. simpl. now rewrite norm_map2_swap.
  - destruct (Nat.eqb_spec (length ys) (length xs)) as [E' | _]; [congruence |].
    destruct xs as [| x [| x' xs]], ys as [| y [| y' ys]];
      cbn [bind]; try reflexivity; try (exfalso; apply N; reflexivity);
      now rewrite norm_map_swap.
Qed.

(** X1: the distance between two positions does not depend on their order,
    failures included. *)
Theorem compute_distance_symmetric (p1 p2 : point) :
  compute_distance p1 p2 = compute_distance p2 p1.
Proof.
  unfold compute_distance.
  destruct p1 as [a | xs], p2 as [b | ys]; cbn [point_sub bind].
  - unfold norm. cbn [ravel map]. now rewrite square_diff_swap.
  - now rewrite norm_map_swap.
  - now rewrite norm_map_swap.
  - pose proof (broadcast2_norm_swap xs ys) as H.
    destruct (broadcast2 Fsub xs ys), (broadcast2 Fsub ys xs); exact H.
Qed.

Lemma squares_self (xs : array) :
  Forall is_finite xs ->
  Fsum (map (fun x => Fmul x x) (map2 Fsub xs xs)) = Fin 0.
Proof.
  induction 1 as [| x xs Hx _ IH]; [reflexivity |].
  destruct x as [a | | |]; simpl in Hx; try contradiction.
  cbn [map2 map]. unfold Fsum in *. cbn [fold_right]. rewrite IH.
  simpl. f_equal. ring.
Qed.

Lemma Fsqrt_zero : Fsqrt (Fin 0) = Fin 0.
Proof.
  simpl. rewrite sgn_zero, sqrt_0. reflexivity.
Qed.

(** X2: the distance from a position of finite coordinates to itself is
    [0.0]. *)
Theorem compute_distance_self (p : point) :
  finite_point p -> compute_distance p p = Ok (Fin 0).
Proof.
  intros Hfin. unfold compute_distance, finite_point in *.
  destruct p as [a | xs]; cbn [point_sub bind ravel] in *.
  - inversion Hfin as [| ? ? Ha _]; subst.
    change (norm (P0 (Fsub a a))) with
      (Fsqrt (Fsum (map (fun x => Fmul x x) (map2 Fsub [a] [a])))).
    rewrite squares_self by (constructor; auto). now rewrite Fsqrt_zero.
  - rewrite broadcast2_same by reflexivity. cbn [bind]. unfold norm. cbn [ravel].
    rewrite squares_self by exact Hfin. now rewrite Fsqrt_zero.
Qed.

Lemma compute_distance_self_witness :
  compute_distance (P1 [Fin 1; Fin 6]) (P1 [Fin 1; Fin 6]) = Ok (Fin 0).
Proof.
  apply compute_distance_self. repeat constructor.
Defined.

(** ** The loop as a map *)

Lemma distances_loop_map (f : point * point -> f64) (pairs : list (point * point)) :
  Forall (fun pr => compute_distance (fst pr) (snd pr) = Ok (f pr)) pairs ->
  forall pre zs : array,
    length zs = length pairs ->
    distances_loop (pre ++ zs) (length pre) pairs = Ok (pre ++ map f pairs).
Proof.
  induction 1 as [| [p1 p2] pairs Hd _ IH]; intros pre zs Hlen.
  - destruct zs; [| discriminate]. reflexivity.
  - destruct zs as [| z zs]; [discriminate |]. simpl in Hlen, Hd.
    injection Hlen as Hlen. cbn [distances_loop]. rewrite Hd. cbn [bind].
    rewrite store_app. cbn [bind].
    replace (pre ++ f (p1, p2) :: zs) with ((pre ++ [f (p1, p2)]) ++ zs)
      by (rewrite <- app_assoc; reflexivity).
    replace (S (length pre)) with (length (pre ++ [f (p1, p2)]))
      by (rewrite length_app; simpl; lia).
    rewrite (IH _ zs Hlen), <- app_assoc. reflexivity.
Qed.

Lemma combine_map_P0 (xs ys : array) :
  combine (map P0 xs) (map P0 ys)
  = map (fun b : f64 * f64 => (P0 (fst b), P0 (snd b))) (combine xs ys).
Proof.
  revert ys. induction xs as [| x xs IH]; intros [| y ys]; simpl; try reflexivity.
  now rewrite IH.
Qed.

Lemma tl_map {A B : Type} (f : A -> B) (l : list A) : tl (map f l) = map f (tl l).
Proof. destruct l; reflexivity. Qed.

(** The distances of a non-empty one-dimensional array, one per pair of
    consecutive entries; the orientation helper plays no part. *)
Lemma compute_distances_1d_pairs (chk : position -> orientation) (xs : array) :
  xs <> [] ->
  compute_distances chk (Pos1 xs)
  = Ok (map (fun b : f64 * f64 => norm (P0 (Fsub (fst b) (snd b))))
          (combine xs (tl xs))).
Proof.
  intros Hne. unfold compute_distances. cbv zeta.
  assert (Ho : oriented chk (Pos1 xs) = Pos1 xs).
  { unfold oriented. destruct (is_row (chk (Pos1 xs))); reflexivity. }
  rewrite Ho. cbn [len items].
  rewrite zeros_pred by (destruct xs; [congruence | simpl; lia]).
  cbn [bind]. rewrite tl_map, combine_map_P0.
  rewrite (distances_loop_map
             (fun pr => norm (P0 (Fsub match fst pr with P0 a => a | P1 _ => NaN end
                                    match snd pr with P0 b => b | P1 _ => NaN end)))
             _) with (pre := []) (zs := repeat (Fin 0) (length xs - 1)).
  - cbn [app]. rewrite map_map. reflexivity.
  - apply Forall_forall. intros pr Hin.
    apply in_map_iff in Hin as [[a b] [<- _]]. reflexivity.
  - rewrite repeat_length, length_map, combine_tl_length. reflexivity.
Qed.

Lemma norm_scalar (a b : R) : norm (P0 (Fsub (Fin a) (Fin b))) = Fin (Rabs (a - b)).
Proof.
  unfold norm, Fsum. cbn [ravel map fold_right Fsub Fneg Fadd Fmul].
  replace ((a + - b) * (a + - b) + 0) with (Rsqr (a - b)) by (unfold Rsqr; ring).
  simpl. rewrite sqrt_Rsqr_abs.
  destruct (sgn_spec (Rsqr (a - b))) as [[H E] | [[H E] | [H E]]]; rewrite E;
    try reflexivity.
  pose proof (Rle_0_sqr (a - b)). lra.
Qed.

Lemma distances_1d_steps (chk : position -> orientation) (xs : list R) :
  xs <> [] ->
  compute_distances chk (Pos1 (map Fin xs))
  = Ok (map (fun b : R * R => Fin (Rabs (fst b - snd b))) (combine xs (tl xs))).
Proof.
  intros Hne. rewrite compute_distances_1d_pairs by (destruct xs; [congruence | discriminate]).
  rewrite tl_map, combine_map_Fin, map_map. f_equal.
  apply map_ext. intros [a b]. apply norm_scalar.
Qed.

(** X3: on a non-empty one-dimensional array of numbers, [compute_distances]
    returns the absolute differences of consecutive positions, whatever the
    orientation helper answers. *)
Theorem compute_distances_1d_abs (chk : position -> orientation) (xs : list R) :
  xs <> [] ->
  compute_distances chk (Pos1 (map Fin xs))
  = Ok (map (fun b : R * R => Fin (Rabs (fst b - snd b))) (combine xs (tl xs))).
Proof.
  intros Hne. destruct xs as [| x0 xs]; [congruence |].
  rewrite compute_distances_1d_pairs by discriminate.
  rewrite tl_map, combine_map_Fin, map_map. f_equal.
  apply map_ext. intros [a b]. apply norm_scalar.
Qed.

Lemma compute_distances_1d_abs_witness :
  compute_distances check_array_orientation_by_shape (Pos1 (map Fin [1; 2; 4; 5]))
  = Ok (map (fun b : R * R => Fin (Rabs (fst b - snd b)))
          (combine [1; 2; 4; 5] (tl [1; 2; 4; 5]))).
Proof.
  apply compute_distances_1d_abs. discriminate.
Defined.

(** ** Cumulative distances as prefix sums *)

Lemma Fadd_assoc (x y z : f64) : Fadd (Fadd x y) z = Fadd x (Fadd y z).
Proof.
  destruct x, y, z; simpl; try reflexivity. f_equal. ring.
Qed.

Lemma Fadd_comm (x y : f64) : Fadd x y = Fadd y x.
Proof.
  destruct x, y; simpl; try reflexivity. f_equal. ring.
Qed.

Lemma Fadd_0_r (x : f64) : Fadd x (Fin 0) = x.
Proof.
  rewrite Fadd_comm. apply Fadd_0_l.
Qed.

Lemma cumsum_from_nth (xs : array) :
  forall (acc : f64) (i : nat),
    (i < length xs)%nat ->
    nth_error (cumsum_from acc xs) i = Some (Fadd acc (Fsum (firstn (S i) xs))).
Proof.
  induction xs as [| x xs IH]; intros acc i Hi; simpl in Hi; [lia |].
  destruct i as [| i]; cbn [cumsum_from nth_error].
  - cbn [firstn]. unfold Fsum. cbn [fold_right]. now rewrite Fadd_0_r.
  - rewrite IH by lia. rewrite Fadd_assoc. reflexivity.
Qed.

(** X4: whenever the distances can be computed, entry [i] of the cumulative
    distances is the sum of the distances of the first [i + 1] steps. *)
Theorem cumulative_distances_prefix_sums
  (chk : position -> orientation) (pos : position) (ds : array) :
  compute_distances chk pos = Ok ds ->
  exists cs,
    compute_cumulative_distances chk pos = Ok cs /\
    length cs = length ds /\
    forall i, (i < length ds)%nat ->
              nth_error cs i = Some (Fsum (firstn (S i) ds)).
Proof.
  intros Hok. exists (cumsum ds). unfold compute_cumulative_distances.
  rewrite Hok. cbn [bind]. split; [reflexivity |]. split.
  - apply cumsum_from_length.
  - intros i Hi. unfold cumsum. rewrite cumsum_from_nth by exact Hi.
    now rewrite Fadd_0_l.
Qed.

Lemma cumulative_distances_prefix_sums_witness :
  exists cs,
    compute_cumulative_distances check_array_orientation_by_shape
      (Pos1 [Fin 1; Fin 2; Fin 4; Fin 5]) = Ok cs /\
    length cs = length [Fin 1; Fin 2; Fin 1] /\
    forall i, (i < length [Fin 1; Fin 2; Fin 1])%nat ->
              nth_error cs i = Some (Fsum (firstn (S i) [Fin 1; Fin 2; Fin 1])).
Proof.
  apply cumulative_distances_prefix_sums. exact compute_distances_1d.
Defined.

(** ** The path is at least as long as the displacement *)

Lemma Fsum_map_Fin (l : list R) : Fsum (map Fin l) = Fin (Rsum l).
Proof.
  induction l as [| a l IH]; [reflexivity |].
  unfold Fsum in *. cbn [map fold_right]. rewrite IH. reflexivity.
Qed.

Lemma path_covers_displacement (xs : list R) :
  forall x0 : R,
    Rabs (last (x0 :: xs) 0 - x0)
    <= Rsum (map (fun b : R * R => Rabs (fst b - snd b)) (combine (x0 :: xs) xs)).
Proof.
  induction xs as [| x1 xs IH]; intros x0.
  - simpl. rewrite Rminus_diag, Rabs_R0. lra.
  - specialize (IH x1).
    change (last (x0 :: x1 :: xs) 0) with (last (x1 :: xs) 0).
    change (combine (x0 :: x1 :: xs) (x1 :: xs))
      with ((x0, x1) :: combine (x1 :: xs) xs).
    unfold Rsum in *. cbn [map fold_right fst snd].
    replace (last (x1 :: xs) 0 - x0) with ((last (x1 :: xs) 0 - x1) + (x1 - x0)) by ring.
    eapply Rle_trans; [apply Rabs_triang |].
    rewrite (Rabs_minus_sym x1 x0). lra.
Qed.

(** X5: on a one-dimensional array of at least two numbers, the last
    cumulative distance is a number that is at least the absolute
    difference between the last and the first position. *)
Theorem cumulative_distance_covers_displacement
  (chk : position -> orientation) (xs : list R) :
  (2 <= length xs)%nat ->
  exists (cs : array) (total : R),
    compute_cumulative_distances chk (Pos1 (map Fin xs)) = Ok cs /\
    nth_error cs (length xs - 2) = Some (Fin total) /\
    Rabs (last xs 0 - hd 0 xs) <= total.
Proof.
  intros Hlen. destruct xs as [| x0 xs]; [simpl in Hlen; lia |].
  pose proof (distances_1d_steps chk (x0 :: xs)) as Hd.
  specialize (Hd ltac:(discriminate)). cbn [tl] in Hd.
  rewrite <- (map_map (fun b : R * R => Rabs (fst b - snd b)) Fin) in Hd.
  set (steps := map (fun b : R * R => Rabs (fst b - snd b)) (combine (x0 :: xs) xs)) in *.
  assert (Hsteps : length steps = (length (x0 :: xs) - 1)%nat).
  { unfold steps. rewrite length_map.
    exact (combine_tl_length (x0 :: xs)). }
  exists (cumsum (map Fin steps)), (Rsum steps).
  unfold compute_cumulative_distances. rewrite Hd. cbn [bind].
  split; [reflexivity |]. split.
  - unfold cumsum. rewrite cumsum_from_nth by (rewrite length_map; simpl in *; lia).
    rewrite Fadd_0_l.
    replace (S (length (x0 :: xs) - 2)) with (length (map Fin steps))
      by (rewrite length_map; simpl in *; lia).
    rewrite firstn_all. apply f_equal, Fsum_map_Fin.
  - cbn [hd]. apply path_covers_displacement.
Qed.

Lemma cumulative_distance_covers_displacement_witness :
  exists (cs : array) (total : R),
    compute_cumulative_distances check_array_orientation_by_shape
      (Pos1 (map Fin [1; 4; 2])) = Ok cs /\
    nth_error cs (length [1; 4; 2] - 2) = Some (Fin total) /\
    Rabs (last [1; 4; 2] 0 - hd 0 [1; 4; 2]) <= total.
Proof.
  apply cumulative_distance_covers_displacement. simpl. lia.
Defined.

(** ** Speed and the durations *)

Lemma map2_Fdiv_scale (k : R) (ds bt : array) :
  0 < k ->
  map2 Fdiv ds (scale k bt) = map (unscale k) (map2 Fdiv ds bt).
Proof.
  intros Hk. revert bt. induction ds as [| d ds IH]; intros [| t bt]; try reflexivity.
  cbn [scale map map2]. rewrite (Fdiv_scale_r k Hk). f_equal. apply IH.
Qed.

Lemma broadcast2_single_l (op : f64 -> f64 -> f64) (x : f64) (ys : array) :
  length ys <> 1%nat -> broadcast2 op [x] ys = Ok (map (op x) ys).
Proof.
  intros H. unfold broadcast2.
  destruct (Nat.eqb_spec (length [x]) (length ys)) as [E | _]; [| reflexivity].
  simpl in E. congruence.
Qed.

Lemma broadcast2_single_r (op : f64 -> f64 -> f64) (xs : array) (y : f64) :
  length xs <> 1%nat -> broadcast2 op xs [y] = Ok (map (fun x => op x y) xs).
Proof.
  intros H. unfold broadcast2.
  destruct (Nat.eqb_spec (length xs) (length [y])) as [E | _]; [simpl in E; congruence |].
  destruct xs as [| x [| x' xs]]; reflexivity.
Qed.

Lemma length_1_inv (xs : array) : length xs = 1%nat -> exists x, xs = [x].
Proof.
  destruct xs as [| x [| x' xs]]; try discriminate. eauto.
Qed.

Lemma broadcast2_Fdiv_scale (k : R) (ds bt : array) :
  0 < k ->
  broadcast2 Fdiv ds (scale k bt)
  = (speed <- broadcast2 Fdiv ds bt ;; Ok (map (unscale k) speed)).
Proof.
  intros Hk.
  assert (Hls : length (scale k bt) = length bt) by apply length_map.
  destruct (Nat.eq_dec (length ds) (length bt)) as [E | N].
  { rewrite !broadcast2_same by congruence. cbn [bind].
    now rewrite map2_Fdiv_scale. }
  destruct (Nat.eq_dec (length ds) 1) as [E1 | N1].
  { apply length_1_inv in E1 as [d ->]. simpl in N.
    rewrite !broadcast2_single_l by congruence. cbn [bind].
    unfold scale. rewrite !map_map. f_equal. apply map_ext. intros t.
    apply (Fdiv_scale_r k Hk). }
  destruct (Nat.eq_dec (length bt) 1) as [E2 | N2].
  { apply length_1_inv in E2 as [t ->]. cbn [scale map].
    rewrite !broadcast2_single_r by assumption. cbn [bind].
    rewrite map_map. f_equal. apply map_ext. intros x.
    apply (Fdiv_scale_r k Hk). }
  rewrite !broadcast2_mismatch by congruence. reflexivity.
Qed.

(** X6: scaling every duration by a positive constant [k] divides every speed
    by [k], and fails exactly when the unscaled call fails. *)
Theorem compute_speed_scaled_durations
  (chk : position -> orientation) (pos : position) (bin_times : array) (k : R) :
  0 < k ->
  compute_speed chk pos (scale k bin_times)
  = (speed <- compute_speed chk pos bin_times ;; Ok (map (unscale k) speed)).
Proof.
  intros Hk. unfold compute_speed.
  destruct (compute_distances chk pos) as [ds | e]; cbn [bind]; [| reflexivity].
  now apply broadcast2_Fdiv_scale.
Qed.

Lemma compute_speed_scaled_durations_witness :
  compute_speed check_array_orientation_by_shape
    (Pos1 [Fin 1; Fin 2; Fin 4; Fin 5]) (scale 2 [Fin 1; Fin 1; Fin (1 / 2)])
  = (speed <- compute_speed check_array_orientation_by_shape
                (Pos1 [Fin 1; Fin 2; Fin 4; Fin 5]) [Fin 1; Fin 1; Fin (1 / 2)] ;;
     Ok (map (unscale 2) speed)).
Proof.
  apply compute_speed_scaled_durations. lra.
Defined.

(** X7: a sequence of exactly two samples has a single distance, which numpy
    broadcasts over the durations: [compute_speed] then succeeds whatever
    the length of [bin_times] and returns one speed per duration. *)
Theorem compute_speed_two_samples
  (chk : position -> orientation) (pos : position) :
  rectangular pos ->
  len (oriented chk pos) = 2%nat ->
  exists d,
    compute_distances chk pos = Ok [d] /\
    forall bin_times,
      compute_speed chk pos bin_times = Ok (map (Fdiv d) bin_times).
Proof.
  intros Hrect Hn.
  destruct (compute_distances_ok chk pos Hrect) as [ds [Hok [Hl _]]]; [lia |].
  rewrite Hn in Hl. destruct ds as [| d [| d' ds]]; try discriminate.
  exists d. split; [exact Hok |]. intros bt.
  unfold compute_speed. rewrite Hok. cbn [bind]. unfold broadcast2.
  destruct bt as [| t [| t' bt]]; reflexivity.
Qed.

Lemma compute_speed_two_samples_witness :
  exists d,
    compute_distances check_array_orientation_by_shape (Pos1 [Fin 1; Fin 3])
    = Ok [d] /\
    forall bin_times,
      compute_speed check_array_orientation_by_shape (Pos1 [Fin 1; Fin 3]) bin_times
      = Ok (map (Fdiv d) bin_times).
Proof.
  apply compute_speed_two_samples; [exact I | reflexivity].
Defined.

(** * Further properties of the spatial information routine *)

(** ** Scaling the spike map *)

Section SpikeScaling.

Variable c : R.
Hypothesis c_pos : 0 < c.

Lemma Fdiv_scale_l (s t : f64) :
  Fdiv (Fmul (Fin c) s) t = Fmul (Fin c) (Fdiv s t).
Proof.
  destruct s as [a | | |], t as [b | | |]; float_cases c c_pos.
Qed.

Lemma Feqb_scale (r : f64) :
  Feqb (Fmul (Fin c) r) (Fin 0) = Feqb r (Fin 0).
Proof.
  destruct r as [a | | |]; simpl; split_signs; try reflexivity; try lra.
  destruct (Req_dec_T (c * a) 0) as [E | E], (Req_dec_T a 0) as [E' | E'];
    try reflexivity; exfalso; nra.
Qed.

Lemma Fmul_scale_r (x y : f64) :
  Fmul x (Fmul (Fin c) y) = Fmul (Fin c) (Fmul x y).
Proof.
  destruct x as [a | | |], y as [b | | |]; float_cases c c_pos.
Qed.

Lemma Fmul_scale_l (x y : f64) :
  Fmul (Fmul (Fin c) x) y = Fmul (Fin c) (Fmul x y).
Proof.
  destruct x as [a | | |], y as [b | | |]; float_cases c c_pos.
Qed.

Lemma combine_scale_l (spike_map occupancy : array) :
  combine (scale c spike_map) occupancy
  = map (fun b : f64 * f64 => (Fmul (Fin c) (fst b), snd b))
      (combine spike_map occupancy).
Proof.
  revert occupancy. induction spike_map as [| s ss IH]; intros [| o os];
    try reflexivity.
  cbn [scale map combine fst snd]. f_equal. apply IH.
Qed.

Lemma firing_scale_l (s o : f64) :
  firing (Fmul (Fin c) s, o) = firing (s, o).
Proof.
  unfold firing, Fnonzero. cbn [fst snd].
  now rewrite Fdiv_scale_l, Feqb_scale.
Qed.

Lemma bin_term_scale_l (total rate s o : f64) :
  bin_term total (Fmul (Fin c) rate) (Fmul (Fin c) s, o)
  = Fmul (Fin c) (bin_term total rate (s, o)).
Proof.
  unfold bin_term.
  rewrite Fdiv_scale_l, (Fdiv_scale_both c c_pos).
  now rewrite Fmul_scale_r, Fmul_scale_l.
Qed.

(** X8: multiplying every spike count by a positive constant leaves the
    information unchanged, in exact arithmetic: the measure is in bits per
    spike. *)
Theorem information_spike_scale_invariant (spike_map occupancy : array) :
  length spike_map = length occupancy ->
  _compute_spatial_information (scale c spike_map) occupancy
  = _compute_spatial_information spike_map occupancy.
Proof.
  intros Hlen.
  rewrite !information_per_bin by (unfold scale; rewrite ?length_map; exact Hlen).
  cbv zeta. f_equal.
  rewrite (nansum_scale c c_pos), Fdiv_scale_l, Feqb_scale.
  destruct (Feqb (Fdiv (nansum spike_map) (nansum occupancy)) (Fin 0));
    [reflexivity |].
  rewrite combine_scale_l, filter_map, map_map.
  rewrite (filter_ext _ firing) by (intros [s o]; apply firing_scale_l).
  rewrite (map_ext _ (fun b => Fmul (Fin c)
                        (bin_term (nansum occupancy)
                           (Fdiv (nansum spike_map) (nansum occupancy)) b)))
    by (intros [s o]; apply bin_term_scale_l).
  rewrite <- (map_map (bin_term _ _) (Fmul (Fin c))).
  change (map (Fmul (Fin c)) ?l) with (scale c l).
  rewrite (nansum_scale c c_pos). apply (Fdiv_scale_both c c_pos).
Qed.

End SpikeScaling.

Lemma information_spike_scale_invariant_witness :
  _compute_spatial_information (scale 3 [Fin 2; Fin 0; Fin 1]) [Fin 1; Fin 3; Fin 0]
  = _compute_spatial_information [Fin 2; Fin 0; Fin 1] [Fin 1; Fin 3; Fin 0].
Proof.
  apply information_spike_scale_invariant.
  - lra.
  - reflexivity.
Defined.

(** ** Empty bins *)

(** X9: a bin whose spike count and occupancy are each zero or NaN (an
    unvisited or masked bin without spikes) can be dropped from both maps
    without changing the result. *)
Theorem information_drop_empty_bin (s0 o0 : f64) (spike_map occupancy : array) :
  length spike_map = length occupancy ->
  nan_to_zero s0 = Fin 0 ->
  nan_to_zero o0 = Fin 0 ->
  _compute_spatial_information (s0 :: spike_map) (o0 :: occupancy)
  = _compute_spatial_information spike_map occupancy.
Proof.
  intros Hlen Hs Ho.
  rewrite !information_per_bin by (simpl; congruence).
  cbv zeta. rewrite !nansum_cons, Hs, Ho, !Fadd_0_l.
  destruct (Feqb (Fdiv (nansum spike_map) (nansum occupancy)) (Fin 0));
    [reflexivity |].
  f_equal. f_equal. cbn [combine filter].
  assert (Hnan : Fdiv s0 o0 = NaN).
  { destruct s0 as [a | | |], o0 as [b | | |]; try discriminate; try reflexivity.
    unfold nan_to_zero in *. simpl in Hs, Ho.
    injection Hs as ->. injection Ho as ->. simpl. now rewrite !sgn_zero. }
  unfold firing at 1. cbn [fst snd]. rewrite Hnan. cbn [Fnonzero Feqb negb map].
  rewrite nansum_cons. unfold bin_term at 1. rewrite Hnan.
  destruct (Fdiv o0 (nansum occupancy)); cbn [Fmul nan_to_zero isnan];
    apply Fadd_0_l.
Qed.

Lemma information_drop_empty_bin_witness :
  _compute_spatial_information (Fin 0 :: [Fin 2; Fin 1]) (NaN :: [Fin 1; Fin 3])
  = _compute_spatial_information [Fin 2; Fin 1] [Fin 1; Fin 3].
Proof.
  apply information_drop_empty_bin; reflexivity.
Defined.

(** ** Maps of different lengths *)

(** X10: on two one-dimensional maps of different lengths, neither of length 1,
    the mismatch is reported (numpy's [ValueError]) only when the rate
    differs from zero: a zero rate returns [0.0] before the maps are ever
    combined. *)
Theorem information_length_mismatch (spike_map occupancy : array) :
  length spike_map <> length occupancy ->
  length spike_map <> 1%nat ->
  length occupancy <> 1%nat ->
  _compute_spatial_information spike_map occupancy
  = if Feqb (Fdiv (nansum spike_map) (nansum occupancy)) (Fin 0)
    then Ok (Fin 0) else Err ValueError.
Proof.
  intros Hne Hs Ho. unfold _compute_spatial_information. cbv zeta.
  destruct (Feqb (Fdiv (nansum spike_map) (nansum occupancy)) (Fin 0));
    [reflexivity |].
  rewrite broadcast2_mismatch by assumption. reflexivity.
Qed.

Lemma information_length_mismatch_witness :
  _compute_spatial_information [Fin 1; Fin 2] [Fin 1; Fin 1; Fin 1]
  = if Feqb (Fdiv (nansum [Fin 1; Fin 2]) (nansum [Fin 1; Fin 1; Fin 1])) (Fin 0)
    then Ok (Fin 0) else Err ValueError.
Proof.
  apply information_length_mismatch; simpl; lia.
Defined.

(** ** The information of real-valued maps *)

(** The routine on non-negative counts with a positive total and positive
    occupancies, in terms of real numbers only. *)
Lemma information_real (spike_map occupancy : list R) :
  length spike_map = length occupancy ->
  Forall (fun s => 0 <= s) spike_map ->
  Forall (fun o => 0 < o) occupancy ->
  0 < Rsum spike_map ->
  0 < Rsum occupancy /\
  _compute_spatial_information (map Fin spike_map) (map Fin occupancy)
  = Ok (Fin (Rsum (map (fun b : R * R =>
                          let (s, o) := b in
                          (o / Rsum occupancy) * (s / o)
                          * log2 ((s / o) / (Rsum spike_map / Rsum occupancy)))
                     (filter (fun b : R * R => let (s, o) := b in Rnonzero (s / o))
                        (combine spike_map occupancy)))
             / (Rsum spike_map / Rsum occupancy))).
Proof.
  intros Hlen Hs Ho HS.
  assert (Hne : occupancy <> []).
  { intros E. subst occupancy. destruct spike_map; [| discriminate].
    simpl in HS. lra. }
  pose proof (Rsum_pos occupancy Hne Ho) as HO. split; [exact HO |].
  assert (Hr : 0 < Rsum spike_map / Rsum occupancy)
    by (apply Rdiv_lt_0_compat; assumption).
  rewrite information_per_bin by (now rewrite !length_map).
  cbv zeta. rewrite !nansum_map_Fin.
  assert (Hdiv : Fdiv (Fin (Rsum spike_map)) (Fin (Rsum occupancy))
                 = Fin (Rsum spike_map / Rsum occupancy)).
  { simpl. rewrite (sgn_pos _ HO). reflexivity. }
  rewrite Hdiv.
  destruct (Feqb (Fin (Rsum spike_map / Rsum occupancy)) (Fin 0)) eqn:Ez.
  { apply Feqb_zero_Fin in Ez. lra. }
  rewrite combine_map_Fin.
  rewrite (nansum_terms_real _ _ _ HO Hr (Forall_combine_R _ _ _ _ Hs Ho)).
  simpl. rewrite (sgn_pos _ Hr). reflexivity.
Qed.

(** ** Uniform firing *)

Lemma Rsum_scale (k : R) (l : list R) : Rsum (map (Rmult k) l) = k * Rsum l.
Proof.
  induction l as [| a l IH]; simpl; [ring |]. unfold Rsum in *. rewrite IH. ring.
Qed.

Lemma combine_map_self (k : R) (l : list R) :
  combine (map (Rmult k) l) l = map (fun x => (k * x, x)) l.
Proof.
  induction l as [| a l IH]; simpl; [reflexivity | now rewrite IH].
Qed.

Lemma log2_1 : log2 1 = 0.
Proof.
  unfold log2. rewrite ln_1. unfold Rdiv. ring.
Qed.

Lemma uniform_terms_vanish (k total : R) (l : list R) :
  0 < k ->
  Forall (fun o => 0 < o) l ->
  Rsum (map (fun b : R * R =>
               let (s, o) := b in (o / total) * (s / o) * log2 ((s / o) / k))
          (filter (fun b : R * R => let (s, o) := b in Rnonzero (s / o))
             (map (fun x => (k * x, x)) l)))
  = 0.
Proof.
  intros Hk. induction 1 as [| x l Hx _ IH]; [reflexivity |].
  cbn [map filter]. destruct (Rnonzero (k * x / x)); [| exact IH].
  cbn [map]. unfold Rsum in *. cbn [fold_right]. rewrite IH.
  replace (k * x / x / k) with 1 by (field; lra).
  rewrite log2_1. ring.
Qed.

(** X11: when the spike count of every bin is the same positive multiple of its
    (positive) occupancy, so that the firing rate is the same everywhere,
    the information is [0.0]. *)
Theorem information_uniform_firing (k : R) (occupancy : list R) :
  0 < k ->
  occupancy <> [] ->
  Forall (fun o => 0 < o) occupancy ->
  _compute_spatial_information (map Fin (map (Rmult k) occupancy)) (map Fin occupancy)
  = Ok (Fin 0).
Proof.
  intros Hk Hne Ho.
  pose proof (Rsum_pos occupancy Hne Ho) as HO.
  destruct (information_real (map (Rmult k) occupancy) occupancy) as [_ Hinfo].
  - now rewrite length_map.
  - apply Forall_map. eapply Forall_impl; [| exact Ho]. intros o Hpos. simpl in *. nra.
  - exact Ho.
  - rewrite Rsum_scale. nra.
  - rewrite Hinfo. rewrite Rsum_scale, combine_map_self.
    replace (k * Rsum occupancy / Rsum occupancy) with k by (field; lra).
    rewrite (uniform_terms_vanish k _ _ Hk Ho). f_equal. f_equal. unfold Rdiv. ring.
Qed.

Lemma information_uniform_firing_witness :
  _compute_spatial_information (map Fin (map (Rmult 2) [1; 3])) (map Fin [1; 3])
  = Ok (Fin 0).
Proof.
  apply information_uniform_firing.
  - lra.
  - discriminate.
  - repeat constructor; lra.
Defined.

(** ** The information is never negative *)

Lemma ln_lower_bound (x : R) : 0 < x -> 1 - / x <= ln x.
Proof.
  intros Hx. pose proof (exp_ineq1_le (- ln x)) as H.
  rewrite exp_Ropp, exp_ln in H by exact Hx. lra.
Qed.

Lemma ln_2_pos : 0 < ln 2.
Proof.
  rewrite <- ln_1. apply ln_increasing; lra.
Qed.

Lemma bin_term_lower_bound (total rate a b : R) :
  0 < total -> 0 < rate -> 0 < a -> 0 < b ->
  (a - rate * b) / (total * ln 2)
  <= (b / total) * (a / b) * log2 ((a / b) / rate).
Proof.
  intros HO Hr Ha Hb. pose proof ln_2_pos as H2.
  assert (Hx : 0 < a / b / rate) by (repeat apply Rdiv_lt_0_compat; assumption).
  pose proof (ln_lower_bound _ Hx) as Hln.
  replace (/ (a / b / rate)) with (rate * b / a) in Hln by (field; lra).
  unfold log2.
  replace ((a - rate * b) / (total * ln 2))
    with (a / (total * ln 2) * (1 - rate * b / a)) by (field; lra).
  replace (b / total * (a / b) * (ln (a / b / rate) / ln 2))
    with (a / (total * ln 2) * ln (a / b / rate)) by (field; lra).
  apply Rmult_le_compat_l; [| exact Hln].
  apply Rlt_le, Rdiv_lt_0_compat; [assumption | nra].
Qed.

Lemma terms_lower_bound (total rate : R) (bins : list (R * R)) :
  0 < total -> 0 < rate ->
  Forall (fun b => 0 <= fst b /\ 0 < snd b) bins ->
  Rsum (map (fun b : R * R => (fst b - rate * snd b) / (total * ln 2)) bins)
  <= Rsum (map (fun b : R * R =>
                  let (s, o) := b in
                  (o / total) * (s / o) * log2 ((s / o) / rate))
             (filter (fun b : R * R => let (s, o) := b in Rnonzero (s / o)) bins)).
Proof.
  intros HO Hr. pose proof ln_2_pos as H2.
  induction 1 as [| [a b] bins [Ha Hb] _ IH]; [simpl; lra |].
  simpl in Ha, Hb. cbn [map filter fst snd]. unfold Rnonzero at 1.
  unfold Rsum in *. cbn [fold_right].
  destruct (Req_dec_T (a / b) 0) as [Hz | Hnz].
  - assert (Hle : (a - rate * b) / (total * ln 2) <= 0).
    { apply Rdiv_eq_0 in Hz; [| lra]. subst a.
      assert (Hi : 0 < / (total * ln 2)) by (apply Rinv_0_lt_compat; nra).
      pose proof (Rmult_lt_0_compat _ _ Hr Hb) as Hrb.
      pose proof (Rmult_lt_0_compat _ _ Hrb Hi) as Hprod.
      unfold Rdiv. lra. }
    lra.
  - assert (Hapos : 0 < a).
    { destruct Ha as [Ha | Ha]; [assumption |].
      exfalso. apply Hnz. subst a. unfold Rdiv. lra. }
    cbn [map fold_right].
    pose proof (bin_term_lower_bound total rate a b HO Hr Hapos Hb). lra.
Qed.

Lemma Rsum_balance (rate K : R) (xs ys : list R) :
  length xs = length ys ->
  Rsum (map (fun b : R * R => (fst b - rate * snd b) / K) (combine xs ys))
  = (Rsum xs - rate * Rsum ys) / K.
Proof.
  revert ys. induction xs as [| x xs IH]; intros [| y ys] Hlen; try discriminate.
  - simpl. unfold Rdiv. ring.
  - simpl in Hlen. injection Hlen as Hlen. specialize (IH ys Hlen).
    unfold Rsum in *. cbn [combine map fold_right fst snd]. rewrite IH.
    unfold Rdiv. ring.
Qed.

(** X12: for non-negative spike counts with a positive total and positive
    occupancies, the routine returns a number that is never negative. *)
Theorem information_nonnegative (spike_map occupancy : list R) :
  length spike_map = length occupancy ->
  Forall (fun s => 0 <= s) spike_map ->
  Forall (fun o => 0 < o) occupancy ->
  0 < Rsum spike_map ->
  exists v : R,
    _compute_spatial_information (map Fin spike_map) (map Fin occupancy)
    = Ok (Fin v) /\ 0 <= v.
Proof.
  intros Hlen Hs Ho HS.
  destruct (information_real spike_map occupancy Hlen Hs Ho HS) as [HO Hinfo].
  eexists. split; [exact Hinfo |].
  assert (Hr : 0 < Rsum spike_map / Rsum occupancy)
    by (apply Rdiv_lt_0_compat; assumption).
  pose proof (terms_lower_bound (Rsum occupancy) _ _ HO Hr
                (Forall_combine_R _ _ _ _ Hs Ho)) as Hlow.
  rewrite (Rsum_balance _ _ _ _ Hlen) in Hlow.
  replace (Rsum spike_map - Rsum spike_map / Rsum occupancy * Rsum occupancy)
    with 0 in Hlow by (field; lra).
  replace (0 / (Rsum occupancy * ln 2)) with 0 in Hlow by (unfold Rdiv; ring).
  apply Rmult_le_pos; [exact Hlow |].
  apply Rlt_le, Rinv_0_lt_compat, Hr.
Qed.

Lemma information_nonnegative_witness :
  exists v : R,
    _compute_spatial_information (map Fin [2; 0; 1]) (map Fin [1; 3; 2])
    = Ok (Fin v) /\ 0 <= v.
Proof.
  apply information_nonnegative.
  - reflexivity.
  - repeat constructor; lra.
  - repeat constructor; lra.
  - simpl. lra.
Defined.

(** ** The order of the bins *)

Lemma nansum_permutation (l l' : array) :
  Permutation l l' -> nansum l = nansum l'.
Proof.
  induction 1 as [| x l l' _ IH | x y l | l l' l'' _ IH1 _ IH2].
  - reflexivity.
  - rewrite !nansum_cons. now rewrite IH.
  - rewrite !nansum_cons, <- !Fadd_assoc. f_equal. apply Fadd_comm.
  - congruence.
Qed.

Lemma filter_permutation {A : Type} (f : A -> bool) (l l' : list A) :
  Permutation l l' -> Permutation (filter f l) (filter f l').
Proof.
  induction 1 as [| x l l' _ IH | x y l | l l' l'' _ IH1 _ IH2]; simpl.
  - constructor.
  - destruct (f x); [constructor |]; assumption.
  - destruct (f x), (f y); try reflexivity. constructor.
  - etransitivity; eassumption.
Qed.

Lemma combine_fst_snd (bins : list (f64 * f64)) :
  combine (map fst bins) (map snd bins) = bins.
Proof.
  induction bins as [| [s o] bins IH]; simpl; [reflexivity | now rewrite IH].
Qed.

(** X13: applying one and the same permutation to the bins of both maps leaves
    the result unchanged, in exact arithmetic: the routine does not depend
    on where a bin lies. *)
Theorem information_permutation (bins bins' : list (f64 * f64)) :
  Permutation bins bins' ->
  _compute_spatial_information (map fst bins) (map snd bins)
  = _compute_spatial_information (map fst bins') (map snd bins').
Proof.
  intros Hp.
  rewrite !information_per_bin by (now rewrite !length_map).
  cbv zeta. rewrite !combine_fst_snd.
  rewrite (nansum_permutation _ _ (Permutation_map fst Hp)).
  rewrite (nansum_permutation _ _ (Permutation_map snd Hp)).
  destruct (Feqb (Fdiv (nansum (map fst bins')) (nansum (map snd bins'))) (Fin 0));
    [reflexivity |].
  f_equal. f_equal.
  apply nansum_permutation, Permutation_map, filter_permutation, Hp.
Qed.

Lemma information_permutation_witness :
  _compute_spatial_information
    (map fst [(Fin 2, Fin 1); (Fin 0, Fin 3)]) (map snd [(Fin 2, Fin 1); (Fin 0, Fin 3)])
  = _compute_spatial_information
      (map fst [(Fin 0, Fin 3); (Fin 2, Fin 1)]) (map snd [(Fin 0, Fin 3); (Fin 2, Fin 1)]).
Proof.
  apply information_permutation. apply perm_swap.
Defined.

(** * Splitting a time value *)

(** X14: the parts returned for an integer number of seconds recompose to it,
    and the minutes and the seconds each lie between 0 and 59; this holds
    for a negative number of seconds too, where only the hours are
    negative. *)
Theorem split_time_value_recompose (sec hours minutes seconds : Z) :
  split_time_value sec = (hours, minutes, seconds) ->
  (sec = hours * 3600 + minutes * 60 + seconds)%Z /\
  (0 <= minutes < 60)%Z /\ (0 <= seconds < 60)%Z.
Proof.
  unfold split_time_value, divmod. intros H. injection H as <- <- <-.
  pose proof (Z.div_mod sec 60 ltac:(lia)) as H1.
  pose proof (Z.div_mod (sec / 60) 60 ltac:(lia)) as H2.
  pose proof (Z.mod_pos_bound sec 60 ltac:(lia)) as B1.
  pose proof (Z.mod_pos_bound (sec / 60) 60 ltac:(lia)) as B2.
  repeat split; lia.
Qed.

Lemma split_time_value_recompose_witness :
  (15000 = 4 * 3600 + 10 * 60 + 0)%Z /\
  (0 <= 10 < 60)%Z /\ (0 <= 0 < 60)%Z.
Proof.
  apply (split_time_value_recompose 15000 4 10 0). reflexivity.
Defined.

(** X15: the number of hours has the sign of the number of seconds: it is
    negative exactly when the seconds are. *)
Theorem split_time_value_hours_sign (sec : Z) :
  (fst (fst (split_time_value sec)) < 0 <-> sec < 0)%Z.
Proof.
  unfold split_time_value, divmod. cbn [fst].
  pose proof (Z.div_mod sec 60 ltac:(lia)) as H1.
  pose proof (Z.div_mod (sec / 60) 60 ltac:(lia)) as H2.
  pose proof (Z.mod_pos_bound sec 60 ltac:(lia)) as B1.
  pose proof (Z.mod_pos_bound (sec / 60) 60 ltac:(lia)) as B2.
  lia.
Qed.

(** * Dataframes of binned data *)

Lemma stack3_app {A B C : Type} (a1 a2 : list A) (b1 b2 : list B) (c1 c2 : list C)
  (r1 r2 : list (A * B * C)) :
  stack3 a1 b1 c1 = Ok r1 -> stack3 a2 b2 c2 = Ok r2 ->
  stack3 (a1 ++ a2) (b1 ++ b2) (c1 ++ c2) = Ok (r1 ++ r2).
Proof.
  revert b1 c1 r1. induction a1 as [| x a1 IH]; intros [| y b1] [| z c1] r1 H1 H2;
    simpl in H1; try discriminate.
  - injection H1 as <-. exact H2.
  - destruct (stack3 a1 b1 c1) as [r |] eqn:E; simpl in H1; [| discriminate].
    injection H1 as <-. simpl. rewrite (IH b1 c1 r E H2). reflexivity.
Qed.

Lemma stack3_row (t : nat) (s : nat) (row : array) :
  stack3 (repeat t (length row)) (seq s (length row)) row
  = Ok (map (fun bv : nat * f64 => (t, fst bv, snd bv))
          (combine (seq s (length row)) row)).
Proof.
  revert s. induction row as [| v row IH]; intros s; simpl; [reflexivity |].
  rewrite IH. reflexivity.
Qed.

(** The stacked data, trial after trial. *)
Lemma stack3_trials (n_bins : nat) (bin_data : list array) :
  Forall (fun r => length r = n_bins) bin_data ->
  forall s : nat,
    stack3 (np_repeat (seq s (length bin_data)) n_bins)
      (np_tile (seq 0 n_bins) (length bin_data)) (concat bin_data)
    = Ok (flat_map (fun tr : nat * array =>
                      map (fun bv : nat * f64 => (fst tr, fst bv, snd bv))
                        (combine (seq 0 n_bins) (snd tr)))
            (combine (seq s (length bin_data)) bin_data)).
Proof.
  unfold np_repeat, np_tile.
  induction 1 as [| row rows Hrow _ IH]; intros s; [reflexivity |].
  cbn [length seq flat_map repeat concat combine fst snd].
  apply stack3_app; [| apply IH].
  rewrite <- Hrow. apply stack3_row.
Qed.

Lemma in_combine_seq {A : Type} (l : list A) (s i : nat) (x : A) :
  In (i, x) (combine (seq s (length l)) l)
  <-> (s <= i)%nat /\ nth_error l (i - s) = Some x.
Proof.
  revert s. induction l as [| y l IH]; intros s; simpl.
  - split; [contradiction |]. intros [_ H]. destruct (i - s)%nat; discriminate.
  - rewrite IH. split.
    + intros [E | [Hle Hn]].
      * injection E as <- <-. rewrite Nat.sub_diag. auto.
      * split; [lia |]. replace (i - s)%nat with (S (i - S s)) by lia. exact Hn.
    + intros [Hle Hn]. destruct (Nat.eq_dec s i) as [<- | Hne].
      * rewrite Nat.sub_diag in Hn. simpl in Hn. left. congruence.
      * right. split; [lia |].
        replace (i - s)%nat with (S (i - S s)) in Hn by lia. exact Hn.
Qed.

(** X16: on a rectangular [bin_data], the dataframe has a row [(t, b, v)]
    exactly when [v] is the entry of [bin_data] at trial [t] and bin [b]
    and, if [drop_na] is set, [v] is not a NaN. *)
Theorem create_dataframe_bins_rows
  (n_bins : nat) (bin_data : list array) (drop_na : bool) :
  Forall (fun r => length r = n_bins) bin_data ->
  exists df,
    create_dataframe_bins n_bins bin_data drop_na = Ok df /\
    forall (t b : nat) (v : f64),
      In (t, b, v) df
      <-> (exists trial_data, nth_error bin_data t = Some trial_data /\
                              nth_error trial_data b = Some v) /\
          (drop_na = true -> isnan v = false).
Proof.
  intros Hrect. unfold create_dataframe_bins. cbv zeta.
  rewrite (stack3_trials n_bins bin_data Hrect 0). cbn [bind].
  eexists. split; [reflexivity |]. intros t b v.
  set (rows := flat_map _ _).
  assert (Hrows : In (t, b, v) rows
                  <-> exists trial_data, nth_error bin_data t = Some trial_data /\
                                         nth_error trial_data b = Some v).
  { unfold rows. rewrite in_flat_map. split.
    - intros [[t' row] [Hin Hmap]]. cbn [fst snd] in Hmap.
      apply in_map_iff in Hmap as [[b' v'] [E Hbv]]. cbn [fst snd] in E.
      injection E as -> -> ->.
      apply in_combine_seq in Hin as [_ Hin]. rewrite Nat.sub_0_r in Hin.
      rewrite Forall_forall in Hrect.
      rewrite <- (Hrect row (nth_error_In _ _ Hin)) in Hbv.
      apply in_combine_seq in Hbv as [_ Hbv]. rewrite Nat.sub_0_r in Hbv. eauto.
    - intros [row [Ht Hb]]. exists (t, row). split.
      + apply in_combine_seq. rewrite Nat.sub_0_r. split; [lia | exact Ht].
      + cbn [fst snd]. apply in_map_iff. exists (b, v). split; [reflexivity |].
        rewrite Forall_forall in Hrect.
        rewrite <- (Hrect row (nth_error_In _ _ Ht)).
        apply in_combine_seq. rewrite Nat.sub_0_r. split; [lia | exact Hb]. }
  unfold create_dataframe. destruct drop_na.
  - rewrite filter_In, Hrows. cbn [snd]. rewrite negb_true_iff.
    split; intros [H1 H2]; split; auto.
  - rewrite Hrows. split; [intros H; split; [exact H | discriminate] | tauto].
Qed.

Lemma create_dataframe_bins_rows_witness :
  exists df,
    create_dataframe_bins 2 [[Fin 1; NaN]; [Fin 3; Fin 4]] true = Ok df /\
    forall (t b : nat) (v : f64),
      In (t, b, v) df
      <-> (exists trial_data,
              nth_error [[Fin 1; NaN]; [Fin 3; Fin 4]] t = Some trial_data /\
              nth_error trial_data b = Some v) /\
          (true = true -> isnan v = false).
Proof.
  apply create_dataframe_bins_rows. repeat constructor.
Defined.

Lemma trial_rows_length (n_bins : nat) (bin_data : list array) (s : nat) :
  Forall (fun r => length r = n_bins) bin_data ->
  length (flat_map (fun tr : nat * array =>
                      map (fun bv : nat * f64 => (fst tr, fst bv, snd bv))
                        (combine (seq 0 n_bins) (snd tr)))
            (combine (seq s (length bin_data)) bin_data))
  = (length bin_data * n_bins)%nat.
Proof.
  intros Hrect. revert s.
  induction Hrect as [| row rest Hrow _ IH]; intros s; [reflexivity |].
  cbn [length seq combine flat_map fst snd].
  rewrite length_app, length_map, length_combine, length_seq, Hrow, IH.
  rewrite Nat.min_id. simpl. reflexivity.
Qed.

(** X17: without [drop_na] the dataframe has one row per entry of a rectangular
    [bin_data]; with it, never more. *)
Theorem create_dataframe_bins_length
  (n_bins : nat) (bin_data : list array) (drop_na : bool) :
  Forall (fun r => length r = n_bins) bin_data ->
  exists df,
    create_dataframe_bins n_bins bin_data drop_na = Ok df /\
    (length df <= length bin_data * n_bins)%nat /\
    (drop_na = false -> length df = (length bin_data * n_bins)%nat).
Proof.
  intros Hrect. unfold create_dataframe_bins. cbv zeta.
  rewrite (stack3_trials n_bins bin_data Hrect 0). cbn [bind].
  eexists. split; [reflexivity |].
  set (rows := flat_map _ _).
  assert (Hlen : length rows = (length bin_data * n_bins)%nat)
    by (apply trial_rows_length; exact Hrect).
  unfold create_dataframe. destruct drop_na.
  - split; [| discriminate]. rewrite <- Hlen. apply filter_length_le.
  - split; [lia | intros _; exact Hlen].
Qed.

Lemma create_dataframe_bins_length_witness :
  exists df,
    create_dataframe_bins 2 [[Fin 1; NaN]; [Fin 3; Fin 4]] false = Ok df /\
    (length df <= length [[Fin 1; NaN]; [Fin 3; Fin 4]] * 2)%nat /\
    (false = false -> length df = (length [[Fin 1; NaN]; [Fin 3; Fin 4]] * 2)%nat).
Proof.
  apply create_dataframe_bins_length. repeat constructor.
Defined.
